(** * F1 data API: a shallow embedding of [server.js]

    The service is an Express application with twenty read-only routes over a
    SQLite database.  Every handler has the same shape: destructure the path
    parameters, validate the integer-typed ones with [isInt], submit one SQL
    statement with its bind parameters to the database handle, and turn the
    outcome of the callback into a JSON response.

    The embedding follows that shape.  A handler is a function from its path
    parameters to a [Plan]: either an immediate reply, or one statement (its
    text and its bind values) together with the callback that builds the
    response from the outcome.  JavaScript's [Number] conversion and SQLite's
    evaluation of the twenty statements are written out as executable
    functions, so that every response can be computed on a concrete dataset. *)

From Stdlib Require Import ZArith QArith List String Ascii Bool Lia.
From Stdlib Require Import Sorting.Sorted Sorting.Permutation.
Import ListNotations.

Local Open Scope string_scope.
Local Open Scope Z_scope.

(** ** Doubles and decimal numerals

    Both JavaScript's [Number] and SQLite's conversion of TEXT to a number
    read a decimal numeral and round it to an IEEE-754 double. *)

Module Double.

(** An IEEE-754 double that is not NaN: an infinity or a finite value, kept as
    the rational it denotes (the sign of zero is irrelevant to every use the
    server makes of a number). *)
Inductive double : Type :=
| DInf (negative : bool)
| DFin (q : Q).

(** [q / 2^k] as a numerator and a denominator. *)
Definition scale_num (n k : Z) : Z := if 0 <=? k then n else n * 2 ^ (- k).
Definition scale_den (d k : Z) : Z := if 0 <=? k then d * 2 ^ k else d.

(** Round-to-nearest, ties-to-even, of the positive rational [n / d] to a
    double: 53 significant bits, least exponent -1074, overflow to infinity
    from 2^1024. *)
Definition round_pos (n d : Z) : double :=
  let e0 := Z.log2 n - Z.log2 d in
  let e := if scale_den d e0 <=? scale_num n e0 then e0 else e0 - 1 in
  let k := Z.max (e - 52) (-1074) in
  let N := scale_num n k in
  let D := scale_den d k in
  let m := N / D in
  let r := N mod D in
  let m' := if 2 * r <? D then m
            else if D <? 2 * r then m + 1
            else if Z.even m then m else m + 1 in
  if 0 <=? k then
    if 2 ^ 1024 <=? m' * 2 ^ k then DInf false else DFin (m' * 2 ^ k # 1)
  else DFin (m' # Z.to_pos (2 ^ (- k))).

Definition negate (d : double) : double :=
  match d with
  | DInf s => DInf (negb s)
  | DFin q => DFin (Qopp q)
  end.

Definition round_double (q : Q) : double :=
  match Qnum q with
  | Z0 => DFin 0
  | Zpos n => round_pos (Zpos n) (Zpos (Qden q))
  | Zneg n => negate (round_pos (Zpos n) (Zpos (Qden q)))
  end.

(** *** Reading a numeric string *)

Definition code (c : ascii) : Z := Z.of_N (N_of_ascii c).

Definition digit_in (base : Z) (c : ascii) : option Z :=
  let n := code c in
  let v := if (48 <=? n) && (n <=? 57) then n - 48
           else if (97 <=? n) && (n <=? 102) then n - 87
           else if (65 <=? n) && (n <=? 70) then n - 55
           else 16 in
  if v <? base then Some v else None.

(** The longest run of digits of [s] in [base]: its value on top of [acc],
    how many digits were read, and what follows. *)
Fixpoint read_digits (base : Z) (s : string) (acc : Z) (count : Z)
  : Z * Z * string :=
  match s with
  | String c s' =>
      match digit_in base c with
      | Some v => read_digits base s' (acc * base + v) (count + 1)
      | None => (acc, count, s)
      end
  | EmptyString => (acc, count, s)
  end.

(** An optional sign: [true] for a minus. *)
Definition read_sign (s : string) : bool * string :=
  match s with
  | String "+" s' => (false, s')
  | String "-" s' => (true, s')
  | _ => (false, s)
  end.

(** ExponentPart: [e] or [E], an optional sign, at least one digit.  Without
    a well-formed exponent nothing is consumed. *)
Definition read_exponent (s : string) : Z * string :=
  match s with
  | String c s' =>
      if (c =? "e")%char || (c =? "E")%char then
        let '(neg, s1) := read_sign s' in
        let '(v, cnt, s2) := read_digits 10 s1 0 0 in
        if 0 <? cnt then ((if neg then - v else v), s2) else (0, s)
      else (0, s)
  | EmptyString => (0, s)
  end.

(** The mathematical value [m * 10^x]. *)
Definition pow10 (m x : Z) : Q :=
  if 0 <=? x then m * 10 ^ x # 1 else m # Z.to_pos (10 ^ (- x)).

(** An unsigned decimal literal: digits, an optional point and fraction, an
    optional exponent, with a digit on at least one side of the point. *)
Definition read_unsigned_decimal (s : string) : option (Q * string) :=
  let '(ip, ci, s1) := read_digits 10 s 0 0 in
  let '(m, cf, s2) :=
    match s1 with
    | String "." s1' => read_digits 10 s1' ip 0
    | _ => (ip, 0, s1)
    end in
  if 0 <? ci + cf then
    let '(x, s3) := read_exponent s2 in
    Some (pow10 m (x - cf), s3)
  else None.

(** Drop leading white space, [skip] removing one white-space character.
    [fuel] only bounds the recursion: the length of the string is enough. *)
Fixpoint drop_white_fuel (skip : string -> option string) (fuel : nat)
  (s : string) : string :=
  match fuel with
  | O => s
  | S fuel' =>
      match skip s with
      | Some s' => drop_white_fuel skip fuel' s'
      | None => s
      end
  end.

Definition drop_white (skip : string -> option string) (s : string) : string :=
  drop_white_fuel skip (String.length s) s.

Definition only_white (skip : string -> option string) (s : string) : bool :=
  match drop_white skip s with
  | EmptyString => true
  | _ => false
  end.

Definition compare (a b : double) : comparison :=
  match a, b with
  | DInf true, DInf true => Eq
  | DInf true, _ => Lt
  | _, DInf true => Gt
  | DInf false, DInf false => Eq
  | DInf false, _ => Gt
  | _, DInf false => Lt
  | DFin p, DFin q => Qcompare p q
  end.

End Double.

(** ** JavaScript: [Number] and [Number.isInteger] *)

Module JS.

Import Double.

Inductive number : Type :=
| NaN
| Num (d : double).

(** WhiteSpace and LineTerminator code points, in the UTF-8 encoding of the
    string: TAB, LF, VT, FF, CR, SP, U+00A0, U+1680, U+2000..U+200A, U+2028,
    U+2029, U+202F, U+205F, U+3000 and U+FEFF. *)
Definition skip_white (s : string) : option string :=
  match s with
  | String c s1 =>
      let n := code c in
      if ((9 <=? n) && (n <=? 13)) || (n =? 32) then Some s1
      else
        match s1 with
        | String c2 s2 =>
            let n2 := code c2 in
            if (n =? 194) && (n2 =? 160) then Some s2
            else
              match s2 with
              | String c3 s3 =>
                  let n3 := code c3 in
                  if (n =? 225) && (n2 =? 154) && (n3 =? 128) then Some s3
                  else if (n =? 226) && (n2 =? 128)
                          && (((128 <=? n3) && (n3 <=? 138))
                              || (n3 =? 168) || (n3 =? 169) || (n3 =? 175))
                  then Some s3
                  else if (n =? 226) && (n2 =? 129) && (n3 =? 159) then Some s3
                  else if (n =? 227) && (n2 =? 128) && (n3 =? 128) then Some s3
                  else if (n =? 239) && (n2 =? 187) && (n3 =? 191) then Some s3
                  else None
              | EmptyString => None
              end
        | EmptyString => None
        end
  | EmptyString => None
  end.

Definition trim_start : string -> string := drop_white skip_white.
Definition all_white : string -> bool := only_white skip_white.

(** StrNumericLiteral, after the leading white space: a prefixed binary, octal
    or hexadecimal integer (unsigned), or a signed decimal literal or
    Infinity. *)
Definition read_prefixed (s : string) : option (Q * string) :=
  match s with
  | String "0" (String p s') =>
      let base :=
        if (p =? "x")%char || (p =? "X")%char then 16
        else if (p =? "o")%char || (p =? "O")%char then 8
        else if (p =? "b")%char || (p =? "B")%char then 2
        else 0 in
      let '(v, cnt, rest) := read_digits base s' 0 0 in
      if 0 <? cnt then Some (v # 1, rest) else None
  | _ => None
  end.

Definition read_signed_decimal (s : string) : option (double * string) :=
  let '(neg, s1) := read_sign s in
  let sgn := fun d => if neg then negate d else d in
  if String.prefix "Infinity" s1
  then Some (sgn (DInf false), String.substring 8 (String.length s1 - 8) s1)
  else
    match read_unsigned_decimal s1 with
    | Some (q, rest) => Some (sgn (round_double q), rest)
    | None => None
    end.

(** [Number(v)] for a string [v]: StringToNumber. *)
Definition Number (v : string) : number :=
  match trim_start v with
  | EmptyString => Num (DFin 0)
  | s =>
      let lit :=
        match read_prefixed s with
        | Some (q, rest) => Some (round_double q, rest)
        | None => read_signed_decimal s
        end in
      match lit with
      | Some (d, rest) => if all_white rest then Num d else NaN
      | None => NaN
      end
  end.

(** [Number.isInteger]: a finite number with no fractional part. *)
Definition Number_isInteger (x : number) : bool :=
  match x with
  | Num (DFin q) => Qnum q mod Zpos (Qden q) =? 0
  | _ => false
  end.

(** [a < b] on numbers: false as soon as one side is NaN. *)
Definition lt (a b : number) : bool :=
  match a, b with
  | Num x, Num y => match Double.compare x y with Lt => true | _ => false end
  | _, _ => false
  end.

End JS.

(** ** SQLite: values, comparison, affinity, LIKE and ORDER BY

    The engine is an external library; what follows is the part of its
    documented behaviour that the statements of [server.js] exercise. *)

Module SQLite.

Import Double.

(** The five storage classes. *)
Inductive value : Type :=
| Null
| Integer (i : Z)
| Real (r : double)
| Text (s : string)
| Blob (b : string).

(** A result row, as the driver hands it to JavaScript: the column names of
    the SELECT list with their values.  A table is the list of its rows in
    scan order. *)
Definition row : Type := list (string * value).

Fixpoint col (name : string) (r : row) : value :=
  match r with
  | [] => Null
  | (k, v) :: r' => if (k =? name)%string then v else col name r'
  end.

Definition columns (r : row) : list string := map fst r.

(** The order of values that comparison operators and ORDER BY use: NULL,
    then numbers by value, then TEXT and then BLOB, both byte-wise (the
    BINARY collation). *)
Definition compare (a b : value) : comparison :=
  match a, b with
  | Null, Null => Eq
  | Null, _ => Lt
  | _, Null => Gt
  | Integer i, Integer j => Z.compare i j
  | Integer i, Real r => Double.compare (DFin (i # 1)) r
  | Real r, Integer j => Double.compare r (DFin (j # 1))
  | Real r, Real t => Double.compare r t
  | (Integer _ | Real _), _ => Lt
  | _, (Integer _ | Real _) => Gt
  | Text s, Text t => String.compare s t
  | Text _, Blob _ => Lt
  | Blob _, Text _ => Gt
  | Blob s, Blob t => String.compare s t
  end.

Definition leb (a b : value) : bool :=
  match compare a b with Gt => false | _ => true end.

(** Comparison operators of a WHERE or ON clause: a NULL operand makes the
    result NULL, which does not select the row. *)
Definition is_null (a : value) : bool :=
  match a with Null => true | _ => false end.

Definition eq (a b : value) : bool :=
  if is_null a || is_null b then false
  else match compare a b with Eq => true | _ => false end.

Definition le (a b : value) : bool :=
  if is_null a || is_null b then false else leb a b.

(** [x BETWEEN lo AND hi] is [x >= lo AND x <= hi]. *)
Definition between (x lo hi : value) : bool := le lo x && le x hi.

(** White space of the text-to-number conversion: space, TAB, LF, VT, FF, CR. *)
Definition skip_space (s : string) : option string :=
  match s with
  | String c s' =>
      let n := code c in
      if ((9 <=? n) && (n <=? 13)) || (n =? 32) then Some s' else None
  | EmptyString => None
  end.

Definition int64_min : Z := - 2 ^ 63.
Definition int64_max : Z := 2 ^ 63 - 1.

(** NUMERIC affinity applied to an operand, as a comparison does when the
    other operand is a column of INTEGER affinity: TEXT that is a well-formed
    decimal numeral (white space around it allowed, no hexadecimal) becomes
    an INTEGER when it is written as an integer that fits 64 bits and a REAL
    otherwise; any other value is left alone.  The conversion to REAL is
    written as the correctly rounded one: the engine's own conversion can
    differ from it in the last place, and releases of the engine differ on
    text with a NUL byte.  What is proved below about the rows that a bound
    text selects is therefore stated where every release agrees: for
    integer numerals, and for text without a digit. *)
Definition numeric_of_text (s : string) : option value :=
  let s0 := drop_white skip_space s in
  let '(neg, s1) := read_sign s0 in
  let '(ip, ci, r1) := read_digits 10 s1 0 0 in
  let i := if neg then - ip else ip in
  if (0 <? ci) && only_white skip_space r1
     && (int64_min <=? i) && (i <=? int64_max)
  then Some (Integer i)
  else
    match read_unsigned_decimal s1 with
    | Some (q, rest) =>
        if only_white skip_space rest
        then Some (Real (if neg then negate (round_double q)
                         else round_double q))
        else None
    | None => None
    end.

Definition numeric_affinity (v : value) : value :=
  match v with
  | Text s => match numeric_of_text s with Some n => n | None => v end
  | _ => v
  end.

(** [LOWER]: the ASCII letters only. *)
Definition lower_char (c : ascii) : ascii :=
  let n := code c in
  if (65 <=? n) && (n <=? 90) then ascii_of_N (Z.to_N (n + 32)) else c.

Fixpoint lower (s : string) : string :=
  match s with
  | EmptyString => EmptyString
  | String c s' => String (lower_char c) (lower s')
  end.

(** A text read as a C string: it ends at its first NUL byte, whatever
    follows it. *)
Fixpoint c_string (s : string) : string :=
  match s with
  | String c s' => if code c =? 0 then EmptyString else String c (c_string s')
  | EmptyString => EmptyString
  end.

Definition continuation (c : ascii) : bool :=
  let n := code c in (128 <=? n) && (n <? 192).

Fixpoint skip_continuation (s : string) : string :=
  match s with
  | String c s' => if continuation c then skip_continuation s' else s
  | EmptyString => s
  end.

Definition at_boundary (s : string) : bool :=
  match s with
  | String c _ => negb (continuation c)
  | EmptyString => true
  end.

(** The comparison of a text with a LIKE pattern, on UTF-8 text: [%] matches
    any run of characters, [_] exactly one character, any other character
    itself up to ASCII case.  There is no escape character. *)
Fixpoint pattern_compare (pattern : string) : string -> bool :=
  match pattern with
  | EmptyString =>
      fun s => match s with EmptyString => true | _ => false end
  | String p pattern' =>
      if (p =? "%")%char then
        fix any (s : string) : bool :=
          (at_boundary s && pattern_compare pattern' s)
          || match s with
             | String _ s' => any s'
             | EmptyString => false
             end
      else if (p =? "_")%char then
        fun s => match s with
                 | String c s' =>
                     pattern_compare pattern'
                       (if 192 <=? code c then skip_continuation s' else s')
                 | EmptyString => false
                 end
      else
        fun s => match s with
                 | String c s' =>
                     (lower_char p =? lower_char c)%char
                     && pattern_compare pattern' s'
                 | EmptyString => false
                 end
  end.

(** [s LIKE pattern]: the engine reads both operands as C strings, so a NUL
    byte ends the pattern as well as the text.  The engine refuses a pattern
    of more than 50 000 bytes; [like] is the result below that length. *)
Definition like (pattern s : string) : bool :=
  pattern_compare (c_string pattern) (c_string s).

(** ORDER BY: a stable insertion sort on the key order [le]. *)
Section OrderBy.
Context {A : Type} (le : A -> A -> bool).

Fixpoint insert (x : A) (l : list A) : list A :=
  match l with
  | [] => [x]
  | y :: l' => if le x y then x :: l else y :: insert x l'
  end.

Fixpoint order_by (l : list A) : list A :=
  match l with
  | [] => []
  | x :: l' => insert x (order_by l')
  end.
End OrderBy.

(** Two sort keys, the second breaking the ties of the first. *)
Definition leb2 (a1 a2 b1 b2 : value) : bool :=
  match compare a1 b1 with
  | Lt => true
  | Eq => leb a2 b2
  | Gt => false
  end.

(** [FROM a JOIN b ON on]: nested loops, [a] outside. *)
Definition join {A B : Type} (a : list A) (b : list B) (on : A -> B -> bool)
  : list (A * B) :=
  flat_map (fun x => map (pair x) (filter (on x) b)) a.

(** *** The dataset *)

(** The tables of [data/f1.db] that the statements read, and the failure the
    handle reports, if any (an I/O error, say): it reaches every callback as
    its [err] argument. *)
Record Database : Type := {
  circuits : list row;
  constructors : list row;
  drivers : list row;
  races : list row;
  results : list row;
  qualifying : list row;
  driverStandings : list row;
  constructorStandings : list row;
  fault : option string
}.

(** The affinity of a column: the two that the columns of the statements
    have. *)
Inductive affinity : Type := INTEGER | TEXT.

(** Modelled from the spec: the schema of [data/f1.db], which is not part of
    the sources.  The references, forenames and surnames are TEXT columns;
    the surrogate identifiers, the season year, the round, the grid slot and
    the positions are INTEGER columns. *)
Definition column_affinity (name : string) : affinity :=
  if existsb (String.eqb name)
       ["circuitRef"; "constructorRef"; "driverRef"; "forename"; "surname"]
  then TEXT else INTEGER.

(** A string bound to a [?] that is compared with column [name]: the driver
    binds a JavaScript string as TEXT, and the comparison applies the
    affinity of the column to it. *)
Definition bound (name : string) (p : string) : value :=
  match column_affinity name with
  | INTEGER => numeric_affinity (Text p)
  | TEXT => Text p
  end.

(** [name = ?] on row [r]. *)
Definition col_eq (name : string) (r : row) (p : string) : bool :=
  eq (col name r) (bound name p).

(** [name BETWEEN ? AND ?] on row [r]. *)
Definition col_between (name : string) (r : row) (lo hi : string) : bool :=
  between (col name r) (bound name lo) (bound name hi).

(** A statement: its text, and the rows it selects from a dataset for the
    strings bound to its [?]s, in order.  [None] stands for a list of strings
    that is not one per [?]: no handler binds such a list, and the driver
    reports an error when it is too long. *)
Record statement : Type := {
  text : string;
  select : Database -> list string -> option (list row)
}.

(** [db.all(sql, params, callback)]: the callback receives the error or all
    the rows. *)
Definition all (db : Database) (st : statement) (params : list string)
  : string + list row :=
  match fault db with
  | Some message => inl message
  | None =>
      match select st db params with
      | Some rows => inr rows
      | None => inl "SQLITE_RANGE: column index out of range"
      end
  end.

(** [db.get(sql, params, callback)]: the callback receives the error or the
    first row, if there is one. *)
Definition get (db : Database) (st : statement) (params : list string)
  : string + option row :=
  match all db st params with
  | inl message => inl message
  | inr rows => inr (hd_error rows)
  end.

End SQLite.

(** ** The statements of [server.js]

    Each statement pairs the SQL text that the handler passes to the handle
    with the rows it selects: FROM and JOIN as nested loops over the tables,
    WHERE as a filter, ORDER BY as a stable sort, the SELECT list as the
    construction of the result row. *)

Module Sql.

Import SQLite.
Local Open Scope list_scope.

(** ORDER BY one column, or two. *)
Definition by_key {A : Type} (key : A -> value) (x y : A) : bool :=
  leb (key x) (key y).

Definition by_keys {A : Type} (key1 key2 : A -> value) (x y : A) : bool :=
  leb2 (key1 x) (key2 x) (key1 y) (key2 y).

(** Columns of [r] selected under their own names, and under an alias
    ([old AS new]). *)
Definition keep (names : list string) (r : row) : row :=
  map (fun name => (name, col name r)) names.

Definition rename (aliases : list (string * string)) (r : row) : row :=
  map (fun a => (fst a, col (snd a) r)) aliases.

(** [LOWER(surname) LIKE LOWER(?) || '%']: a NULL surname gives NULL; the
    column has TEXT affinity and holds no number. *)
Definition surname_like (surname : value) (substring : string) : bool :=
  match surname with
  | Text s | Blob s => like (lower substring ++ "%")%string (lower s)
  | _ => false
  end.

(** The SELECT list of statements 16 and 17, over a result joined with its
    driver, race and constructor. *)
Definition driver_result (t : row * row * row * row) : row :=
  let '(r, d, ra, c) := t in
  keep ["resultId"; "position"; "points"; "grid"; "laps"; "statusId"] r
  ++ keep ["raceId"; "year"; "round"; "name"; "date"] ra
  ++ rename [("constructor_name", "name");
             ("constructor_ref", "constructorRef")] c.

(** 1) [/api/circuits] *)
Definition sql_circuits : statement := {|
  text := "SELECT * FROM circuits;";
  select := fun db params =>
    match params with
    | [] => Some (circuits db)
    | _ => None
    end
|}.

(** 2) [/api/circuits/:circuitRef] *)
Definition sql_circuit : statement := {|
  text := "SELECT * FROM circuits WHERE circuitRef = ?;";
  select := fun db params =>
    match params with
    | [circuitRef] =>
        Some (filter (fun c => col_eq "circuitRef" c circuitRef) (circuits db))
    | _ => None
    end
|}.

(** 3) [/api/circuits/season/:year] *)
Definition sql_circuits_season : statement := {|
  text := "
    SELECT c.*
    FROM circuits c
    JOIN races r ON c.circuitId = r.circuitId
    WHERE r.year = ?
    ORDER BY r.round ASC;
  ";
  select := fun db params =>
    match params with
    | [year] =>
        Some (map fst
                (order_by (by_key (fun cr => col "round" (snd cr)))
                   (filter (fun cr => col_eq "year" (snd cr) year)
                      (join (circuits db) (races db)
                         (fun c r => eq (col "circuitId" c)
                                        (col "circuitId" r))))))
    | _ => None
    end
|}.

(** 4) [/api/constructors] *)
Definition sql_constructors : statement := {|
  text := "SELECT * FROM constructors;";
  select := fun db params =>
    match params with
    | [] => Some (constructors db)
    | _ => None
    end
|}.

(** 5) [/api/constructors/:ref] *)
Definition sql_constructor : statement := {|
  text := "SELECT * FROM constructors WHERE constructorRef = ?;";
  select := fun db params =>
    match params with
    | [ref] =>
        Some (filter (fun c => col_eq "constructorRef" c ref) (constructors db))
    | _ => None
    end
|}.

(** 6) [/api/drivers] *)
Definition sql_drivers : statement := {|
  text := "SELECT * FROM drivers;";
  select := fun db params =>
    match params with
    | [] => Some (drivers db)
    | _ => None
    end
|}.

(** 7) [/api/drivers/:ref] *)
Definition sql_driver : statement := {|
  text := "SELECT * FROM drivers WHERE driverRef = ?;";
  select := fun db params =>
    match params with
    | [ref] => Some (filter (fun d => col_eq "driverRef" d ref) (drivers db))
    | _ => None
    end
|}.

(** 8) [/api/drivers/search/:substring] *)
Definition sql_drivers_search : statement := {|
  text := "
    SELECT * FROM drivers
    WHERE LOWER(surname) LIKE LOWER(?) || '%'
    ORDER BY surname ASC, forename ASC;
  ";
  select := fun db params =>
    match params with
    | [substring] =>
        Some (order_by (by_keys (col "surname") (col "forename"))
                (filter (fun d => surname_like (col "surname" d) substring)
                   (drivers db)))
    | _ => None
    end
|}.

(** 9) [/api/drivers/race/:raceId] *)
Definition sql_drivers_race : statement := {|
  text := "
    SELECT d.*
    FROM results r
    JOIN drivers d ON d.driverId = r.driverId
    WHERE r.raceId = ?
    ORDER BY r.grid ASC;
  ";
  select := fun db params =>
    match params with
    | [raceId] =>
        Some (map snd
                (order_by (by_key (fun rd => col "grid" (fst rd)))
                   (filter (fun rd => col_eq "raceId" (fst rd) raceId)
                      (join (results db) (drivers db)
                         (fun r d => eq (col "driverId" d)
                                        (col "driverId" r))))))
    | _ => None
    end
|}.

(** 10) [/api/races/:raceId] *)
Definition sql_race : statement := {|
  text := "
    SELECT
      r.raceId, r.year, r.round, r.name, r.date, r.time, r.url,
      c.name AS circuitName, c.location, c.country
    FROM races r
    JOIN circuits c ON c.circuitId = r.circuitId
    WHERE r.raceId = ?;
  ";
  select := fun db params =>
    match params with
    | [raceId] =>
        Some (map (fun rc =>
                     let '(r, c) := rc in
                     keep ["raceId"; "year"; "round"; "name"; "date"; "time";
                           "url"] r
                     ++ [("circuitName", col "name" c);
                         ("location", col "location" c);
                         ("country", col "country" c)])
                (filter (fun rc => col_eq "raceId" (fst rc) raceId)
                   (join (races db) (circuits db)
                      (fun r c => eq (col "circuitId" c)
                                     (col "circuitId" r)))))
    | _ => None
    end
|}.

(** 11) [/api/races/season/:year] *)
Definition sql_races_season : statement := {|
  text := "SELECT * FROM races WHERE year = ? ORDER BY round ASC;";
  select := fun db params =>
    match params with
    | [year] =>
        Some (order_by (by_key (col "round"))
                (filter (fun r => col_eq "year" r year) (races db)))
    | _ => None
    end
|}.

(** 12) [/api/races/season/:year/:round] *)
Definition sql_race_season_round : statement := {|
  text := "SELECT * FROM races WHERE year = ? AND round = ?;";
  select := fun db params =>
    match params with
    | [year; round] =>
        Some (filter (fun r => col_eq "year" r year && col_eq "round" r round)
                (races db))
    | _ => None
    end
|}.

(** 13) [/api/races/circuits/:ref] *)
Definition sql_races_circuit : statement := {|
  text := "
    SELECT r.*
    FROM races r
    JOIN circuits c ON c.circuitId = r.circuitId
    WHERE c.circuitRef = ?
    ORDER BY r.year ASC, r.round ASC;
  ";
  select := fun db params =>
    match params with
    | [ref] =>
        Some (map fst
                (order_by (by_keys (fun rc => col "year" (fst rc))
                                   (fun rc => col "round" (fst rc)))
                   (filter (fun rc => col_eq "circuitRef" (snd rc) ref)
                      (join (races db) (circuits db)
                         (fun r c => eq (col "circuitId" c)
                                        (col "circuitId" r))))))
    | _ => None
    end
|}.

(** 14) [/api/races/circuits/:ref/season/:start/:end] *)
Definition sql_races_circuit_seasons : statement := {|
  text := "
    SELECT r.*
    FROM races r
    JOIN circuits c ON c.circuitId = r.circuitId
    WHERE c.circuitRef = ?
      AND r.year BETWEEN ? AND ?
    ORDER BY r.year ASC, r.round ASC;
  ";
  select := fun db params =>
    match params with
    | [ref; start; end_] =>
        Some (map fst
                (order_by (by_keys (fun rc => col "year" (fst rc))
                                   (fun rc => col "round" (fst rc)))
                   (filter (fun rc => col_eq "circuitRef" (snd rc) ref
                                      && col_between "year" (fst rc) start end_)
                      (join (races db) (circuits db)
                         (fun r c => eq (col "circuitId" c)
                                        (col "circuitId" r))))))
    | _ => None
    end
|}.

(** 15) [/api/results/:raceId] *)
Definition sql_results : statement := {|
  text := "
    SELECT
      r.resultId, r.position, r.positionText, r.points, r.grid, r.laps, r.statusId,
      -- race
      ra.name   AS race_name,   ra.round AS race_round, ra.year AS race_year, ra.date AS race_date,
      -- driver
      d.driverRef AS driver_ref, d.code AS driver_code, d.forename AS driver_forename, d.surname AS driver_surname,
      -- constructor
      c.name AS constructor_name, c.constructorRef AS constructor_ref, c.nationality AS constructor_nationality
    FROM results r
    JOIN races ra       ON ra.raceId = r.raceId
    JOIN drivers d      ON d.driverId = r.driverId
    JOIN constructors c ON c.constructorId = r.constructorId
    WHERE r.raceId = ?
    ORDER BY r.grid ASC;
  ";
  select := fun db params =>
    match params with
    | [raceId] =>
        Some (map (fun t =>
                     let '(r, ra, d, c) := t in
                     keep ["resultId"; "position"; "positionText"; "points";
                           "grid"; "laps"; "statusId"] r
                     ++ rename [("race_name", "name"); ("race_round", "round");
                                ("race_year", "year"); ("race_date", "date")] ra
                     ++ rename [("driver_ref", "driverRef"); ("driver_code", "code");
                                ("driver_forename", "forename");
                                ("driver_surname", "surname")] d
                     ++ rename [("constructor_name", "name");
                                ("constructor_ref", "constructorRef");
                                ("constructor_nationality", "nationality")] c)
                (order_by (by_key (fun t => col "grid" (fst (fst (fst t)))))
                   (filter (fun t => col_eq "raceId" (fst (fst (fst t))) raceId)
                      (join (join (join (results db) (races db)
                                     (fun r ra => eq (col "raceId" ra)
                                                     (col "raceId" r)))
                               (drivers db)
                               (fun t d => eq (col "driverId" d)
                                              (col "driverId" (fst t))))
                         (constructors db)
                         (fun t c => eq (col "constructorId" c)
                                        (col "constructorId" (fst (fst t))))))))
    | _ => None
    end
|}.

(** 16) [/api/results/driver/:ref] *)
Definition sql_results_driver : statement := {|
  text := "
    SELECT
      r.resultId, r.position, r.points, r.grid, r.laps, r.statusId,
      ra.raceId, ra.year, ra.round, ra.name, ra.date,
      c.name AS constructor_name, c.constructorRef AS constructor_ref
    FROM results r
    JOIN drivers d      ON d.driverId = r.driverId
    JOIN races ra       ON ra.raceId = r.raceId
    JOIN constructors c ON c.constructorId = r.constructorId
    WHERE d.driverRef = ?
    ORDER BY ra.year ASC, ra.round ASC;
  ";
  select := fun db params =>
    match params with
    | [ref] =>
        Some (map driver_result
                (order_by (by_keys (fun t => col "year" (snd (fst t)))
                                   (fun t => col "round" (snd (fst t))))
                   (filter (fun t => col_eq "driverRef" (snd (fst (fst t))) ref)
                      (join (join (join (results db) (drivers db)
                                     (fun r d => eq (col "driverId" d)
                                                    (col "driverId" r)))
                               (races db)
                               (fun t ra => eq (col "raceId" ra)
                                               (col "raceId" (fst t))))
                         (constructors db)
                         (fun t c => eq (col "constructorId" c)
                                        (col "constructorId" (fst (fst t))))))))
    | _ => None
    end
|}.

(** 17) [/api/results/drivers/:ref/seasons/:start/:end] *)
Definition sql_results_driver_seasons : statement := {|
  text := "
    SELECT
      r.resultId, r.position, r.points, r.grid, r.laps, r.statusId,
      ra.raceId, ra.year, ra.round, ra.name, ra.date,
      c.name AS constructor_name, c.constructorRef AS constructor_ref
    FROM results r
    JOIN drivers d      ON d.driverId = r.driverId
    JOIN races ra       ON ra.raceId = r.raceId
    JOIN constructors c ON c.constructorId = r.constructorId
    WHERE d.driverRef = ?
      AND ra.year BETWEEN ? AND ?
    ORDER BY ra.year ASC, ra.round ASC;
  ";
  select := fun db params =>
    match params with
    | [ref; start; end_] =>
        Some (map driver_result
                (order_by (by_keys (fun t => col "year" (snd (fst t)))
                                   (fun t => col "round" (snd (fst t))))
                   (filter (fun t => col_eq "driverRef" (snd (fst (fst t))) ref
                                     && col_between "year" (snd (fst t))
                                          start end_)
                      (join (join (join (results db) (drivers db)
                                     (fun r d => eq (col "driverId" d)
                                                    (col "driverId" r)))
                               (races db)
                               (fun t ra => eq (col "raceId" ra)
                                               (col "raceId" (fst t))))
                         (constructors db)
                         (fun t c => eq (col "constructorId" c)
                                        (col "constructorId" (fst (fst t))))))))
    | _ => None
    end
|}.

(** 18) [/api/qualifying/:raceId] *)
Definition sql_qualifying_race : statement := {|
  text := "
    SELECT
      q.qualifyId, q.position, q.q1, q.q2, q.q3,
      ra.name AS race_name, ra.round AS race_round, ra.year AS race_year, ra.date AS race_date,
      d.driverRef AS driver_ref, d.code AS driver_code, d.forename AS driver_forename, d.surname AS driver_surname,
      c.name AS constructor_name, c.constructorRef AS constructor_ref, c.nationality AS constructor_nationality
    FROM qualifying q
    JOIN races ra       ON ra.raceId = q.raceId
    JOIN drivers d      ON d.driverId = q.driverId
    JOIN constructors c ON c.constructorId = q.constructorId
    WHERE q.raceId = ?
    ORDER BY q.position ASC;
  ";
  select := fun db params =>
    match params with
    | [raceId] =>
        Some (map (fun t =>
                     let '(q, ra, d, c) := t in
                     keep ["qualifyId"; "position"; "q1"; "q2"; "q3"] q
                     ++ rename [("race_name", "name"); ("race_round", "round");
                                ("race_year", "year"); ("race_date", "date")] ra
                     ++ rename [("driver_ref", "driverRef"); ("driver_code", "code");
                                ("driver_forename", "forename");
                                ("driver_surname", "surname")] d
                     ++ rename [("constructor_name", "name");
                                ("constructor_ref", "constructorRef");
                                ("constructor_nationality", "nationality")] c)
                (order_by (by_key (fun t => col "position" (fst (fst (fst t)))))
                   (filter (fun t => col_eq "raceId" (fst (fst (fst t))) raceId)
                      (join (join (join (qualifying db) (races db)
                                     (fun q ra => eq (col "raceId" ra)
                                                     (col "raceId" q)))
                               (drivers db)
                               (fun t d => eq (col "driverId" d)
                                              (col "driverId" (fst t))))
                         (constructors db)
                         (fun t c => eq (col "constructorId" c)
                                        (col "constructorId" (fst (fst t))))))))
    | _ => None
    end
|}.

(** 19) [/api/standings/drivers/:raceId] *)
Definition sql_standings_drivers : statement := {|
  text := "
    SELECT
      ds.position, ds.points, ds.wins,
      d.driverRef AS driver_ref, d.code AS driver_code, d.forename AS driver_forename, d.surname AS driver_surname
    FROM driverStandings ds
    JOIN drivers d ON d.driverId = ds.driverId
    WHERE ds.raceId = ?
    ORDER BY ds.position ASC;
  ";
  select := fun db params =>
    match params with
    | [raceId] =>
        Some (map (fun t =>
                     let '(ds, d) := t in
                     keep ["position"; "points"; "wins"] ds
                     ++ rename [("driver_ref", "driverRef"); ("driver_code", "code");
                                ("driver_forename", "forename");
                                ("driver_surname", "surname")] d)
                (order_by (by_key (fun t => col "position" (fst t)))
                   (filter (fun t => col_eq "raceId" (fst t) raceId)
                      (join (driverStandings db) (drivers db)
                         (fun ds d => eq (col "driverId" d)
                                         (col "driverId" ds))))))
    | _ => None
    end
|}.

(** 20) [/api/standings/constructors/:raceId] *)
Definition sql_standings_constructors : statement := {|
  text := "
    SELECT
      cs.position, cs.points, cs.wins,
      c.name AS constructor_name, c.constructorRef AS constructor_ref, c.nationality AS constructor_nationality
    FROM constructorStandings cs
    JOIN constructors c ON c.constructorId = cs.constructorId
    WHERE cs.raceId = ?
    ORDER BY cs.position ASC;
  ";
  select := fun db params =>
    match params with
    | [raceId] =>
        Some (map (fun t =>
                     let '(cs, c) := t in
                     keep ["position"; "points"; "wins"] cs
                     ++ rename [("constructor_name", "name");
                                ("constructor_ref", "constructorRef");
                                ("constructor_nationality", "nationality")] c)
                (order_by (by_key (fun t => col "position" (fst t)))
                   (filter (fun t => col_eq "raceId" (fst t) raceId)
                      (join (constructorStandings db) (constructors db)
                         (fun cs c => eq (col "constructorId" c)
                                         (col "constructorId" cs))))))
    | _ => None
    end
|}.

End Sql.

(** ** The handlers of [server.js] *)

Import SQLite Sql.

(** A JSON response: [res.status(n).json(body)].  The body is an error object
    [{ error: message }], an array of rows, or one row. *)
Inductive body : Type :=
| Error (message : string)
| Array (rows : list row)
| Object (obj : row).

Record response : Type := {
  status : Z;
  json : body
}.

(** What a handler does with a request: it replies at once, or it submits
    one statement with [db.all] or [db.get], and replies from the callback. *)
Inductive Plan : Type :=
| Reply (r : response)
| All (sql : statement) (params : list string)
      (callback : string + list row -> response)
| Get (sql : statement) (params : list string)
      (callback : string + option row -> response).

Definition notFound (msg : string) : response :=
  {| status := 404; json := Error msg |}.

(** The default argument of [notFound]. *)
Definition no_data_found : string := "No data found.".

Definition isInt (v : string) : bool := JS.Number_isInteger (JS.Number v).

Definition badReq (msg : string) : response :=
  {| status := 400; json := Error msg |}.

(** [res.json(x)]: status 200. *)
Definition ok (b : body) : response := {| status := 200; json := b |}.

(** The callback of every [db.all]: the error, else no row, else the rows. *)
Definition rows_or (msg : string) (outcome : string + list row) : response :=
  match outcome with
  | inl message => {| status := 500; json := Error message |}
  | inr [] => notFound msg
  | inr rows => ok (Array rows)
  end.

(** The callback of every [db.get]: the error, else no row, else the row. *)
Definition row_or (msg : string) (outcome : string + option row) : response :=
  match outcome with
  | inl message => {| status := 500; json := Error message |}
  | inr None => notFound msg
  | inr (Some row) => ok (Object row)
  end.

(** 1) /api/circuits *)
Definition get_circuits : Plan :=
  All sql_circuits [] (rows_or no_data_found).

(** 2) /api/circuits/:circuitRef *)
Definition get_circuit (circuitRef : string) : Plan :=
  Get sql_circuit [circuitRef] (row_or no_data_found).

(** 3) /api/circuits/season/:year *)
Definition get_circuits_season (year : string) : Plan :=
  All sql_circuits_season [year]
    (rows_or ("No circuits found for season " ++ year ++ ".")).

(** 4) /api/constructors *)
Definition get_constructors : Plan :=
  All sql_constructors [] (rows_or no_data_found).

(** 5) /api/constructors/:ref *)
Definition get_constructor (ref : string) : Plan :=
  Get sql_constructor [ref]
    (row_or ("No constructor found with ref '" ++ ref ++ "'.")).

(** 6) /api/drivers *)
Definition get_drivers : Plan :=
  All sql_drivers [] (rows_or no_data_found).

(** 7) /api/drivers/:ref *)
Definition get_driver (ref : string) : Plan :=
  Get sql_driver [ref] (row_or ("No driver found with ref '" ++ ref ++ "'.")).

(** 8) /api/drivers/search/:substring *)
Definition get_drivers_search (substring : string) : Plan :=
  All sql_drivers_search [substring]
    (rows_or ("No drivers with surname starting '" ++ substring ++ "'.")).

(** 9) /api/drivers/race/:raceId *)
Definition get_drivers_race (raceId : string) : Plan :=
  if negb (isInt raceId) then Reply (badReq "raceId must be an integer.")
  else All sql_drivers_race [raceId]
         (rows_or ("No drivers found for raceId " ++ raceId ++ ".")).

(** 10) /api/races/:raceId *)
Definition get_race (raceId : string) : Plan :=
  if negb (isInt raceId) then Reply (badReq "raceId must be an integer.")
  else Get sql_race [raceId]
         (row_or ("No race found with id " ++ raceId ++ ".")).

(** 11) /api/races/season/:year *)
Definition get_races_season (year : string) : Plan :=
  if negb (isInt year) then Reply (badReq "Year must be an integer.")
  else All sql_races_season [year]
         (rows_or ("No races for season " ++ year ++ ".")).

(** 12) /api/races/season/:year/:round *)
Definition get_race_season_round (year round : string) : Plan :=
  if negb (isInt year) || negb (isInt round)
  then Reply (badReq "Year and round must be integers.")
  else Get sql_race_season_round [year; round]
         (row_or ("No race for season " ++ year ++ ", round " ++ round ++ ".")).

(** 13) /api/races/circuits/:ref *)
Definition get_races_circuit (ref : string) : Plan :=
  All sql_races_circuit [ref]
    (rows_or ("No races for circuit '" ++ ref ++ "'.")).

(** 14) /api/races/circuits/:ref/season/:start/:end *)
Definition get_races_circuit_seasons (ref start end_ : string) : Plan :=
  if negb (isInt start) || negb (isInt end_)
  then Reply (badReq "start and end must be integers.")
  else if JS.lt (JS.Number end_) (JS.Number start)
  then Reply (badReq "end year must be >= start year.")
  else All sql_races_circuit_seasons [ref; start; end_]
         (rows_or ("No races for '" ++ ref ++ "' between " ++ start
                   ++ " and " ++ end_ ++ ".")).

(** 15) /api/results/:raceId *)
Definition get_results (raceId : string) : Plan :=
  if negb (isInt raceId) then Reply (badReq "raceId must be an integer.")
  else All sql_results [raceId]
         (rows_or ("No results for raceId " ++ raceId ++ ".")).

(** 16) /api/results/driver/:ref *)
Definition get_results_driver (ref : string) : Plan :=
  All sql_results_driver [ref]
    (rows_or ("No results for driver '" ++ ref ++ "'.")).

(** 17) /api/results/drivers/:ref/seasons/:start/:end *)
Definition get_results_driver_seasons (ref start end_ : string) : Plan :=
  if negb (isInt start) || negb (isInt end_)
  then Reply (badReq "start and end must be integers.")
  else if JS.lt (JS.Number end_) (JS.Number start)
  then Reply (badReq "end year must be >= start year.")
  else All sql_results_driver_seasons [ref; start; end_]
         (rows_or ("No results for '" ++ ref ++ "' between " ++ start
                   ++ " and " ++ end_ ++ ".")).

(** 18) /api/qualifying/:raceId *)
Definition get_qualifying (raceId : string) : Plan :=
  if negb (isInt raceId) then Reply (badReq "raceId must be an integer.")
  else All sql_qualifying_race [raceId]
         (rows_or ("No qualifying for raceId " ++ raceId ++ ".")).

(** 19) /api/standings/drivers/:raceId *)
Definition get_standings_drivers (raceId : string) : Plan :=
  if negb (isInt raceId) then Reply (badReq "raceId must be an integer.")
  else All sql_standings_drivers [raceId]
         (rows_or ("No driver standings for raceId " ++ raceId ++ ".")).

(** 20) /api/standings/constructors/:raceId *)
Definition get_standings_constructors (raceId : string) : Plan :=
  if negb (isInt raceId) then Reply (badReq "raceId must be an integer.")
  else All sql_standings_constructors [raceId]
         (rows_or ("No constructor standings for raceId " ++ raceId ++ ".")).

(** *** Requests and routing *)

(** A routed request: the route that matched, with [req.params]. *)
Inductive request : Type :=
| Circuits
| Circuit (circuitRef : string)
| CircuitsSeason (year : string)
| Constructors
| Constructor (ref : string)
| Drivers
| Driver (ref : string)
| DriversSearch (substring : string)
| DriversRace (raceId : string)
| Race (raceId : string)
| RacesSeason (year : string)
| RaceSeasonRound (year round : string)
| RacesCircuit (ref : string)
| RacesCircuitSeasons (ref start end_ : string)
| Results (raceId : string)
| ResultsDriver (ref : string)
| ResultsDriverSeasons (ref start end_ : string)
| Qualifying (raceId : string)
| StandingsDrivers (raceId : string)
| StandingsConstructors (raceId : string).

(** The handler registered for each route. *)
Definition handle (r : request) : Plan :=
  match r with
  | Circuits => get_circuits
  | Circuit circuitRef => get_circuit circuitRef
  | CircuitsSeason year => get_circuits_season year
  | Constructors => get_constructors
  | Constructor ref => get_constructor ref
  | Drivers => get_drivers
  | Driver ref => get_driver ref
  | DriversSearch substring => get_drivers_search substring
  | DriversRace raceId => get_drivers_race raceId
  | Race raceId => get_race raceId
  | RacesSeason year => get_races_season year
  | RaceSeasonRound year round => get_race_season_round year round
  | RacesCircuit ref => get_races_circuit ref
  | RacesCircuitSeasons ref start end_ =>
      get_races_circuit_seasons ref start end_
  | Results raceId => get_results raceId
  | ResultsDriver ref => get_results_driver ref
  | ResultsDriverSeasons ref start end_ =>
      get_results_driver_seasons ref start end_
  | Qualifying raceId => get_qualifying raceId
  | StandingsDrivers raceId => get_standings_drivers raceId
  | StandingsConstructors raceId => get_standings_constructors raceId
  end.

(** The operation of a request, numbered as the routes are in the source. *)
Definition operation (r : request) : nat :=
  match r with
  | Circuits => 1 | Circuit _ => 2 | CircuitsSeason _ => 3
  | Constructors => 4 | Constructor _ => 5 | Drivers => 6 | Driver _ => 7
  | DriversSearch _ => 8 | DriversRace _ => 9 | Race _ => 10
  | RacesSeason _ => 11 | RaceSeasonRound _ _ => 12 | RacesCircuit _ => 13
  | RacesCircuitSeasons _ _ _ => 14 | Results _ => 15 | ResultsDriver _ => 16
  | ResultsDriverSeasons _ _ _ => 17 | Qualifying _ => 18
  | StandingsDrivers _ => 19 | StandingsConstructors _ => 20
  end%nat.

(** [req.params] as a list, in the order of the placeholders. *)
Definition params (r : request) : list string :=
  match r with
  | Circuits | Constructors | Drivers => []
  | Circuit p | CircuitsSeason p | Constructor p | Driver p
  | DriversSearch p | DriversRace p | Race p | RacesSeason p
  | RacesCircuit p | Results p | ResultsDriver p | Qualifying p
  | StandingsDrivers p | StandingsConstructors p => [p]
  | RaceSeasonRound p q => [p; q]
  | RacesCircuitSeasons p q r | ResultsDriverSeasons p q r => [p; q; r]
  end.

(** Express matches the path against the routes in the order of their
    registration, and the first match handles the request (no handler passes
    it on).  A route matches when the path has its segments: a literal
    segment up to ASCII case, a placeholder any non-empty segment; one
    trailing slash is ignored.  [path] is the list of the segments between
    the slashes, percent-decoded. *)
Inductive segment : Type :=
| Lit (s : string)
| Placeholder.

Fixpoint match_route (pattern : list segment) (path : list string)
  : option (list string) :=
  match pattern, path with
  | [], [] => Some []
  | Lit s :: pattern', x :: path' =>
      if (lower x =? s)%string then match_route pattern' path' else None
  | Placeholder :: pattern', x :: path' =>
      if (x =? "")%string then None
      else option_map (cons x) (match_route pattern' path')
  | _, _ => None
  end.

Definition routes : list (list segment * (list string -> option request)) :=
  let p0 f := fun ps => match ps with [] => Some f | _ => None end in
  let p1 f := fun ps => match ps with [a] => Some (f a) | _ => None end in
  let p2 f := fun ps => match ps with [a; b] => Some (f a b) | _ => None end in
  let p3 f := fun ps =>
                match ps with [a; b; c] => Some (f a b c) | _ => None end in
  [ ([Lit "api"; Lit "circuits"], p0 Circuits);
    ([Lit "api"; Lit "circuits"; Placeholder], p1 Circuit);
    ([Lit "api"; Lit "circuits"; Lit "season"; Placeholder], p1 CircuitsSeason);
    ([Lit "api"; Lit "constructors"], p0 Constructors);
    ([Lit "api"; Lit "constructors"; Placeholder], p1 Constructor);
    ([Lit "api"; Lit "drivers"], p0 Drivers);
    ([Lit "api"; Lit "drivers"; Placeholder], p1 Driver);
    ([Lit "api"; Lit "drivers"; Lit "search"; Placeholder], p1 DriversSearch);
    ([Lit "api"; Lit "drivers"; Lit "race"; Placeholder], p1 DriversRace);
    ([Lit "api"; Lit "races"; Placeholder], p1 Race);
    ([Lit "api"; Lit "races"; Lit "season"; Placeholder], p1 RacesSeason);
    ([Lit "api"; Lit "races"; Lit "season"; Placeholder; Placeholder],
     p2 RaceSeasonRound);
    ([Lit "api"; Lit "races"; Lit "circuits"; Placeholder], p1 RacesCircuit);
    ([Lit "api"; Lit "races"; Lit "circuits"; Placeholder; Lit "season";
      Placeholder; Placeholder], p3 RacesCircuitSeasons);
    ([Lit "api"; Lit "results"; Placeholder], p1 Results);
    ([Lit "api"; Lit "results"; Lit "driver"; Placeholder], p1 ResultsDriver);
    ([Lit "api"; Lit "results"; Lit "drivers"; Placeholder; Lit "seasons";
      Placeholder; Placeholder], p3 ResultsDriverSeasons);
    ([Lit "api"; Lit "qualifying"; Placeholder], p1 Qualifying);
    ([Lit "api"; Lit "standings"; Lit "drivers"; Placeholder],
     p1 StandingsDrivers);
    ([Lit "api"; Lit "standings"; Lit "constructors"; Placeholder],
     p1 StandingsConstructors) ].

Fixpoint first_match
  (table : list (list segment * (list string -> option request)))
  (path : list string) : option request :=
  match table with
  | [] => None
  | (pattern, build) :: table' =>
      match match_route pattern path with
      | Some ps => build ps
      | None => first_match table' path
      end
  end.

Definition drop_trailing_slash (path : list string) : list string :=
  match rev path with
  | "" :: p => rev p
  | _ => path
  end.

Definition route (path : list string) : option request :=
  first_match routes (drop_trailing_slash path).

(** Running a plan against the dataset. *)
Definition run (db : Database) (p : Plan) : response :=
  match p with
  | Reply r => r
  | All sql params callback => callback (all db sql params)
  | Get sql params callback => callback (get db sql params)
  end.

Definition serve (db : Database) (r : request) : response :=
  run db (handle r).

(** The statement a plan submits, if it submits one, and its parameters. *)
Definition submitted (p : Plan) : option (statement * list string) :=
  match p with
  | Reply _ => None
  | All sql params _ | Get sql params _ => Some (sql, params)
  end.

(** ** A sample dataset

    A few rows in the shape of [data/f1.db], out of order on purpose, on
    which the responses can be computed. *)

Module Sample.

Definition circuit (id : Z) (ref name location country : string) : row :=
  [("circuitId", Integer id); ("circuitRef", Text ref); ("name", Text name);
   ("location", Text location); ("country", Text country)].

Definition constructor (id : Z) (ref name nationality : string) : row :=
  [("constructorId", Integer id); ("constructorRef", Text ref);
   ("name", Text name); ("nationality", Text nationality)].

Definition driver (id : Z) (ref code forename surname : string) : row :=
  [("driverId", Integer id); ("driverRef", Text ref); ("code", Text code);
   ("forename", Text forename); ("surname", Text surname)].

Definition race (id year round circuitId : Z) (name date : string) : row :=
  [("raceId", Integer id); ("year", Integer year); ("round", Integer round);
   ("circuitId", Integer circuitId); ("name", Text name); ("date", Text date);
   ("time", Text "13:00:00"); ("url", Null)].

Definition result (id raceId driverId constructorId grid : Z)
  (position : value) : row :=
  [("resultId", Integer id); ("raceId", Integer raceId);
   ("driverId", Integer driverId); ("constructorId", Integer constructorId);
   ("grid", Integer grid); ("position", position);
   ("positionText", Text "1"); ("points", Integer 25); ("laps", Integer 53);
   ("statusId", Integer 1)].

Definition db : Database := {|
  circuits :=
    [ circuit 14 "monza" "Autodromo Nazionale di Monza" "Monza" "Italy";
      circuit 6 "monaco" "Circuit de Monaco" "Monte-Carlo" "Monaco";
      circuit 21 "imola" "Autodromo Enzo e Dino Ferrari" "Imola" "Italy" ];
  constructors :=
    [ constructor 131 "mercedes" "Mercedes" "German";
      constructor 9 "red_bull" "Red Bull" "Austrian" ];
  drivers :=
    [ driver 830 "max_verstappen" "VER" "Max" "Verstappen";
      driver 1 "hamilton" "HAM" "Lewis" "Hamilton";
      driver 30 "michael_schumacher" "MSC" "Michael" "Schumacher";
      driver 854 "mick_schumacher" "MSC" "Mick" "Schumacher" ];
  races :=
    [ race 1089 2022 16 14 "Italian Grand Prix" "2022-09-11";
      race 1077 2022 4 21 "Emilia Romagna Grand Prix" "2022-04-24";
      race 1080 2022 7 6 "Monaco Grand Prix" "2022-05-29";
      race 1038 2020 8 14 "Italian Grand Prix" "2020-09-06";
      race 1065 2021 14 14 "Italian Grand Prix" "2021-09-12" ];
  results :=
    [ result 25406 1077 1 131 13 (Integer 13);
      result 25401 1077 830 9 1 (Integer 1);
      result 25900 1089 830 9 7 (Integer 1);
      result 25901 1089 1 131 19 (Integer 5) ];
  qualifying := [];
  driverStandings := [];
  constructorStandings := [];
  fault := None
|}.

End Sample.

(** * Properties

    The vocabulary of the statements first, then the proofs. *)

(** The string does not convert to a number: JavaScript's [isNaN(v)]. *)
Definition non_numeric (v : string) : Prop := JS.Number v = JS.NaN.

(** The rational is an integer. *)
Definition integral (q : Q) : Prop := exists z : Z, q == inject_Z z.

(** The path parameters that an operation requires to be integers: the ones
    its handler passes to [isInt]. *)
Definition integer_params (r : request) : list string :=
  match r with
  | DriversRace raceId | Race raceId | Results raceId | Qualifying raceId
  | StandingsDrivers raceId | StandingsConstructors raceId => [raceId]
  | RacesSeason year => [year]
  | RaceSeasonRound year round => [year; round]
  | RacesCircuitSeasons _ start end_
  | ResultsDriverSeasons _ start end_ => [start; end_]
  | _ => []
  end.

(** The range of a two-ended operation is inverted. *)
Definition inverted (r : request) : bool :=
  match r with
  | RacesCircuitSeasons _ start end_
  | ResultsDriverSeasons _ start end_ =>
      JS.lt (JS.Number end_) (JS.Number start)
  | _ => false
  end.

(** The statement of each operation. *)
Definition statement_of (r : request) : statement :=
  match r with
  | Circuits => sql_circuits
  | Circuit _ => sql_circuit
  | CircuitsSeason _ => sql_circuits_season
  | Constructors => sql_constructors
  | Constructor _ => sql_constructor
  | Drivers => sql_drivers
  | Driver _ => sql_driver
  | DriversSearch _ => sql_drivers_search
  | DriversRace _ => sql_drivers_race
  | Race _ => sql_race
  | RacesSeason _ => sql_races_season
  | RaceSeasonRound _ _ => sql_race_season_round
  | RacesCircuit _ => sql_races_circuit
  | RacesCircuitSeasons _ _ _ => sql_races_circuit_seasons
  | Results _ => sql_results
  | ResultsDriver _ => sql_results_driver
  | ResultsDriverSeasons _ _ _ => sql_results_driver_seasons
  | Qualifying _ => sql_qualifying_race
  | StandingsDrivers _ => sql_standings_drivers
  | StandingsConstructors _ => sql_standings_constructors
  end.

(** The message of the 404 of each operation. *)
Definition not_found_message (r : request) : string :=
  match r with
  | Circuits | Circuit _ | Constructors | Drivers => no_data_found
  | CircuitsSeason year => "No circuits found for season " ++ year ++ "."
  | Constructor ref => "No constructor found with ref '" ++ ref ++ "'."
  | Driver ref => "No driver found with ref '" ++ ref ++ "'."
  | DriversSearch substring =>
      "No drivers with surname starting '" ++ substring ++ "'."
  | DriversRace raceId => "No drivers found for raceId " ++ raceId ++ "."
  | Race raceId => "No race found with id " ++ raceId ++ "."
  | RacesSeason year => "No races for season " ++ year ++ "."
  | RaceSeasonRound year round =>
      "No race for season " ++ year ++ ", round " ++ round ++ "."
  | RacesCircuit ref => "No races for circuit '" ++ ref ++ "'."
  | RacesCircuitSeasons ref start end_ =>
      "No races for '" ++ ref ++ "' between " ++ start ++ " and " ++ end_
      ++ "."
  | Results raceId => "No results for raceId " ++ raceId ++ "."
  | ResultsDriver ref => "No results for driver '" ++ ref ++ "'."
  | ResultsDriverSeasons ref start end_ =>
      "No results for '" ++ ref ++ "' between " ++ start ++ " and " ++ end_
      ++ "."
  | Qualifying raceId => "No qualifying for raceId " ++ raceId ++ "."
  | StandingsDrivers raceId =>
      "No driver standings for raceId " ++ raceId ++ "."
  | StandingsConstructors raceId =>
      "No constructor standings for raceId " ++ raceId ++ "."
  end.

(** A natural number that JavaScript represents exactly. *)
Definition safe (n : Z) : Prop := 0 <= n < 2 ^ 53.

(** The decimal numeral of a natural number, as a client writes it in a
    path. *)
Definition digit_char (d : Z) : ascii := ascii_of_N (Z.to_N (48 + d)).

Fixpoint decimal_fuel (fuel : nat) (n : Z) (acc : string) : string :=
  match fuel with
  | O => acc
  | S fuel' =>
      if n <? 10 then String (digit_char n) acc
      else decimal_fuel fuel' (n / 10) (String (digit_char (n mod 10)) acc)
  end.

Definition decimal (n : Z) : string :=
  decimal_fuel (S (Z.to_nat (Z.log2 n))) n "".

(** The rows are non-decreasing in column [name], in the order of values
    (on integers, the order of the integers: [leb_Integer]). *)
Definition nondecreasing (name : string) (rows : list row) : Prop :=
  Sorted (fun a b => leb (col name a) (col name b) = true) rows.

(** Race [raceId] has a result row, with the race, the driver and the
    constructor that it references. *)
Definition has_results (db : Database) (raceId : Z) : Prop :=
  exists r ra d c,
    In r (results db) /\ In ra (races db) /\ In d (drivers db)
    /\ In c (constructors db)
    /\ col "raceId" r = Integer raceId
    /\ eq (col "raceId" ra) (col "raceId" r) = true
    /\ eq (col "driverId" d) (col "driverId" r) = true
    /\ eq (col "constructorId" c) (col "constructorId" r) = true.

(** The dataset invariant: no two rows of the race table have the same
    year and the same round. *)
Definition round_unique_in_season (table : list row) : Prop :=
  forall i j r1 r2,
    nth_error table i = Some r1 -> nth_error table j = Some r2 ->
    eq (col "year" r1) (col "year" r2) = true ->
    eq (col "round" r1) (col "round" r2) = true ->
    i = j.

(** [race] is a race at circuit [ref] whose year lies between [S] and [E],
    both included. *)
Definition circuit_race_between (db : Database) (ref : string) (S E : Z)
  (race : row) : Prop :=
  exists c,
    In race (races db) /\ In c (circuits db)
    /\ eq (col "circuitId" c) (col "circuitId" race) = true
    /\ col_eq "circuitRef" c ref = true
    /\ between (col "year" race) (Integer S) (Integer E) = true.

(** [obj] is the result row of driver [ref] in a race whose year lies
    between [S] and [E], both included. *)
Definition driver_result_between (db : Database) (ref : string) (S E : Z)
  (obj : row) : Prop :=
  exists r d ra c,
    In r (results db) /\ In d (drivers db) /\ In ra (races db)
    /\ In c (constructors db)
    /\ eq (col "driverId" d) (col "driverId" r) = true
    /\ eq (col "raceId" ra) (col "raceId" r) = true
    /\ eq (col "constructorId" c) (col "constructorId" r) = true
    /\ col_eq "driverRef" d ref = true
    /\ between (col "year" ra) (Integer S) (Integer E) = true
    /\ obj = driver_result (r, d, ra, c).

(** [key] occurs in [msg]. *)
Definition mentions (msg key : string) : Prop :=
  exists before after, msg = before ++ key ++ after.

Fixpoint contains (key msg : string) : bool :=
  String.prefix key msg
  || match msg with
     | String _ msg' => contains key msg'
     | EmptyString => false
     end.

(** The string has no decimal digit. *)
Definition is_digit (c : ascii) : bool :=
  (48 <=? Double.code c) && (Double.code c <=? 57).

Fixpoint digitless (s : string) : bool :=
  match s with
  | EmptyString => true
  | String c s' => negb (is_digit c) && digitless s'
  end.





(** ** Validation of integer parameters *)

Lemma integral_iff (q : Q) :
  (Qnum q mod Zpos (Qden q) =? 0) = true <-> integral q.
Proof.
  rewrite Z.eqb_eq. unfold integral, Qeq, inject_Z. simpl. split.
  - intros H. exists (Qnum q / Zpos (Qden q)).
    rewrite Z.mul_1_r. rewrite Z.mul_comm.
    apply Z.div_exact; [lia | exact H].
  - intros [z Hz]. rewrite Z.mul_1_r in Hz. rewrite Hz.
    apply Z.mod_mul. lia.
Qed.

Lemma isInt_true_iff (v : string) :
  isInt v = true <->
  exists q, JS.Number v = JS.Num (Double.DFin q) /\ integral q.
Proof.
  unfold isInt, JS.Number_isInteger. split.
  - destruct (JS.Number v) as [|[s|q]]; try discriminate.
    intros H. exists q. split; [reflexivity | now apply integral_iff].
  - intros [q [-> Hq]]. now apply integral_iff.
Qed.

(** The operations with an integer parameter are 9 to 12, 14, 15 and 17
    to 20. *)
Lemma integer_operations (r : request) :
  integer_params r <> []
  <-> In (operation r) [9; 10; 11; 12; 14; 15; 17; 18; 19; 20]%nat.
Proof.
  destruct r; simpl; split; intros H;
    try congruence; try discriminate; try tauto;
    repeat (destruct H as [H | H]; try discriminate H);
    try contradiction.
Qed.

Lemma non_numeric_not_int (v : string) : non_numeric v -> isInt v = false.
Proof. unfold non_numeric, isInt. now intros ->. Qed.

(** *** Strings without a digit

    No numeral is without a digit, [Infinity] apart: a string that has none
    is read as a number neither by [Number], unless it is blank, nor by the
    data store. *)

Lemma digit_in_10 (c : ascii) :
  is_digit c = false -> Double.digit_in 10 c = None.
Proof.
  destruct c as [[] [] [] [] [] [] [] []]; intros H;
    first [discriminate H | reflexivity].
Qed.

Lemma read_digits_digitless (s : string) (acc count : Z) :
  digitless s = true -> Double.read_digits 10 s acc count = (acc, count, s).
Proof.
  destruct s as [ | c s]; [reflexivity | ]. simpl. intros H.
  apply andb_true_iff in H. destruct H as [H _].
  apply negb_true_iff in H. now rewrite (digit_in_10 c H).
Qed.

Lemma digitless_tail (c : ascii) (s : string) :
  digitless (String c s) = true -> digitless s = true.
Proof. simpl. intros H. now apply andb_true_iff in H. Qed.

Lemma read_sign_digitless (s : string) :
  digitless s = true -> digitless (snd (Double.read_sign s)) = true.
Proof.
  destruct s as [ | c s]; [reflexivity | ]. intros H.
  pose proof (digitless_tail c s H) as Ht.
  destruct c as [[] [] [] [] [] [] [] []]; simpl; assumption.
Qed.

Lemma drop_white_digitless (skip : string -> option string) (s : string) :
  (forall a b, skip a = Some b -> digitless a = true -> digitless b = true) ->
  digitless s = true -> digitless (Double.drop_white skip s) = true.
Proof.
  intros Hskip. unfold Double.drop_white. generalize (String.length s).
  intros fuel. revert s. induction fuel as [ | fuel IH]; intros s H; simpl.
  - exact H.
  - destruct (skip s) as [s' | ] eqn:E; [ | exact H].
    apply IH. exact (Hskip s s' E H).
Qed.


Lemma skip_white_digitless (a b : string) :
  JS.skip_white a = Some b -> digitless a = true -> digitless b = true.
Proof.
  unfold JS.skip_white.
  destruct a as [ | c1 a]; [discriminate | ].
  intros E H. apply digitless_tail in H.
  destruct (_ || _); [now inversion E; subst | ].
  destruct a as [ | c2 a]; [discriminate | ].
  apply digitless_tail in H.
  destruct (_ && _); [now inversion E; subst | ].
  destruct a as [ | c3 a]; [discriminate | ].
  apply digitless_tail in H.
  repeat match type of E with
         | (if ?b then _ else _) = _ =>
             destruct b; [now inversion E; subst | ]
         end.
  discriminate.
Qed.

Lemma read_unsigned_decimal_digitless (s : string) :
  digitless s = true -> Double.read_unsigned_decimal s = None.
Proof.
  intros H. unfold Double.read_unsigned_decimal.
  rewrite (read_digits_digitless s 0 0 H).
  destruct s as [ | c s]; [reflexivity | ].
  pose proof (read_digits_digitless s 0 0 (digitless_tail c s H)) as E.
  destruct c as [[] [] [] [] [] [] [] []]; try reflexivity.
  now rewrite E.
Qed.

Lemma read_prefixed_digitless (s : string) :
  digitless s = true -> JS.read_prefixed s = None.
Proof.
  destruct s as [ | c s]; [reflexivity | ]. simpl. intros H.
  apply andb_true_iff in H. destruct H as [H _].
  destruct c as [[] [] [] [] [] [] [] []];
    first [discriminate H | reflexivity].
Qed.

(** A string without a digit that is not blank fails [isInt]. *)
Lemma digitless_not_int (v : string) :
  digitless v = true -> JS.all_white v = false -> isInt v = false.
Proof.
  intros H Hw. unfold isInt, JS.Number.
  unfold JS.all_white, Double.only_white in Hw. unfold JS.trim_start.
  pose proof (drop_white_digitless JS.skip_white v skip_white_digitless H)
    as Ht.
  destruct (Double.drop_white JS.skip_white v) as [ | c t];
    [discriminate | ].
  rewrite (read_prefixed_digitless _ Ht). unfold JS.read_signed_decimal.
  pose proof (read_sign_digitless _ Ht) as Hs.
  destruct (Double.read_sign (String c t)) as [neg s1]. simpl in Hs.
  destruct (String.prefix "Infinity" s1).
  - destruct neg; destruct (JS.all_white _); reflexivity.
  - now rewrite (read_unsigned_decimal_digitless s1 Hs).
Qed.


(** A parameter that fails [isInt] stops the handler before any statement. *)
Lemma not_integer_rejected (r : request) (v : string) :
  In v (integer_params r) -> isInt v = false ->
  exists msg, handle r = Reply (badReq msg).
Proof.
  destruct r; simpl; intros Hin Hv;
    repeat (destruct Hin as [<- | Hin]; [ | ]); try contradiction;
    cbv beta delta [get_drivers_race get_race get_races_season
      get_race_season_round get_races_circuit_seasons get_results
      get_results_driver_seasons get_qualifying get_standings_drivers
      get_standings_constructors];
    rewrite Hv; simpl; rewrite ?orb_true_r; eauto.
Qed.

(** With every integer parameter accepted and the range in order, the
    handler submits the statement of its operation with [req.params], the
    strings as they came. *)
Lemma accepted_submits (r : request) :
  forallb isInt (integer_params r) = true -> inverted r = false ->
  submitted (handle r) = Some (statement_of r, params r).
Proof.
  destruct r; simpl; intros Hint Hinv; try reflexivity;
    cbv beta delta [get_drivers_race get_race get_races_season
      get_race_season_round get_races_circuit_seasons get_results
      get_results_driver_seasons get_qualifying get_standings_drivers
      get_standings_constructors];
    repeat (apply andb_true_iff in Hint; destruct Hint as [?H Hint]);
    repeat match goal with H : isInt _ = true |- _ => rewrite H; clear H end;
    rewrite ?Hinv; reflexivity.
Qed.

(** The three shapes of a handler: a 400 reply, or the statement of the
    operation submitted with [req.params] to [db.all] or to [db.get], with
    the one callback of its kind and the message of the operation. *)
Lemma handle_cases (r : request) :
  (exists msg, handle r = Reply (badReq msg))
  \/ handle r
     = All (statement_of r) (params r) (rows_or (not_found_message r))
  \/ handle r
     = Get (statement_of r) (params r) (row_or (not_found_message r)).
Proof.
  destruct r; simpl;
    cbv beta delta [get_circuits get_circuit get_circuits_season
      get_constructors get_constructor get_drivers get_driver
      get_drivers_search get_drivers_race get_race get_races_season
      get_race_season_round get_races_circuit get_races_circuit_seasons
      get_results get_results_driver get_results_driver_seasons
      get_qualifying get_standings_drivers get_standings_constructors];
    repeat match goal with
           | |- context [if ?b then _ else _] => destruct b
           end; eauto.
Qed.

Lemma handle_shape (r : request) :
  (exists msg, handle r = Reply (badReq msg))
  \/ (exists msg,
        handle r = All (statement_of r) (params r) (rows_or msg))
  \/ (exists msg,
        handle r = Get (statement_of r) (params r) (row_or msg)).
Proof. destruct (handle_cases r) as [H | [H | H]]; eauto. Qed.

Lemma rows_or_status (msg : string) (outcome : string + list row) :
  status (rows_or msg outcome) = 500
  \/ status (rows_or msg outcome) = 404
  \/ status (rows_or msg outcome) = 200.
Proof. destruct outcome as [m | [ | x rows]]; simpl; auto. Qed.

Lemma row_or_status (msg : string) (outcome : string + option row) :
  status (row_or msg outcome) = 500
  \/ status (row_or msg outcome) = 404
  \/ status (row_or msg outcome) = 200.
Proof. destruct outcome as [m | [row | ]]; simpl; auto. Qed.

Lemma submitted_inv (r : request) (st : statement) (ps : list string) :
  submitted (handle r) = Some (st, ps) ->
  st = statement_of r /\ ps = params r.
Proof.
  destruct (handle_shape r) as [[msg H] | [[msg H] | [msg H]]]; rewrite H;
    simpl; intros E; inversion E; auto.
Qed.

(** C1 as stated fails on a blank parameter.  A single space has no digit,
    yet [Number] converts it to 0: it passes [isInt], the statement is
    submitted with it, and on the sample dataset the answer is the 404 of a
    race that does not exist, not a 400. *)
Lemma blank_parameter_passes_validation :
  route ["api"; "races"; " "] = Some (Race " ")
  /\ In " " (integer_params (Race " "))
  /\ digitless " " = true
  /\ JS.Number " " = JS.Num (Double.DFin 0)
  /\ isInt " " = true
  /\ submitted (handle (Race " ")) = Some (sql_race, [" "])
  /\ serve Sample.db (Race " ")
     = {| status := 404; json := Error "No race found with id  ." |}.
Proof. repeat split; try reflexivity. simpl. auto. Qed.

(** C1, amended.  For every operation that declares an integer-typed path
    parameter (raceId in operations 9, 10, 15, 18, 19 and 20, year in 11,
    year and round in 12, start and end in 14 and 17), a supplied value that
    does not convert to a number (its [Number] conversion is NaN), or that
    has no digit and is not blank, makes the handler reply with status 400
    and an [{ error: message }] body, without submitting any statement to
    the data store, whatever the dataset.  A blank value is not covered: it
    converts to 0 and is accepted. *)
Theorem non_numeric_parameter_is_bad_request (r : request) (v : string) :
  In v (integer_params r) ->
  non_numeric v \/ (digitless v = true /\ JS.all_white v = false) ->
  exists msg,
    handle r = Reply {| status := 400; json := Error msg |}
    /\ submitted (handle r) = None
    /\ forall db, serve db r = {| status := 400; json := Error msg |}.
Proof.
  intros Hin Hv.
  assert (Hint : isInt v = false).
  { destruct Hv as [Hv | [Hd Hw]].
    - now apply non_numeric_not_int.
    - now apply digitless_not_int. }
  destruct (not_integer_rejected r v Hin Hint) as [msg Hmsg].
  exists msg. unfold serve. rewrite Hmsg. repeat split.
Qed.

Lemma non_numeric_parameter_is_bad_request_witness :
  In "asds" (integer_params (StandingsConstructors "asds"))
  /\ non_numeric "asds"
  /\ exists msg,
       handle (StandingsConstructors "asds")
       = Reply {| status := 400; json := Error msg |}
       /\ submitted (handle (StandingsConstructors "asds")) = None
       /\ forall db, serve db (StandingsConstructors "asds")
                     = {| status := 400; json := Error msg |}.
Proof.
  assert (Hin : In "asds" (integer_params (StandingsConstructors "asds")))
    by (simpl; auto).
  assert (Hv : non_numeric "asds") by (vm_compute; reflexivity).
  split; [exact Hin | split; [exact Hv | ]].
  exact (non_numeric_parameter_is_bad_request
           (StandingsConstructors "asds") "asds" Hin (or_introl Hv)).
Defined.

(** C3. For every one of the twenty operations: a statement that yields no
    row ([db.all] with an empty array, [db.get] with no row) is answered
    with status 404 and an [{ error: message }] body; and a response with
    status 200 carries either a non-empty array or an object, whatever the
    callback received.  A reply made without a statement never has status
    200. *)
Theorem empty_result_is_not_found (r : request) :
  match handle r with
  | Reply resp => status resp <> 200
  | All _ _ callback =>
      (exists msg,
          callback (inr []) = {| status := 404; json := Error msg |})
      /\ forall outcome,
          status (callback outcome) = 200 ->
          exists rows,
            rows <> [] /\ outcome = inr rows
            /\ json (callback outcome) = Array rows
  | Get _ _ callback =>
      (exists msg,
          callback (inr None) = {| status := 404; json := Error msg |})
      /\ forall outcome,
          status (callback outcome) = 200 ->
          exists row,
            outcome = inr (Some row) /\ json (callback outcome) = Object row
  end.
Proof.
  assert (Hall : forall msg,
    (exists m, rows_or msg (inr []) = {| status := 404; json := Error m |})
    /\ forall outcome, status (rows_or msg outcome) = 200 ->
         exists rows, rows <> [] /\ outcome = inr rows
                      /\ json (rows_or msg outcome) = Array rows).
  { intros msg. split; [now exists msg | ].
    intros [m | [ | x rows]]; simpl; try discriminate.
    intros _. exists (x :: rows). repeat split. discriminate. }
  assert (Hget : forall msg,
    (exists m, row_or msg (inr None) = {| status := 404; json := Error m |})
    /\ forall outcome, status (row_or msg outcome) = 200 ->
         exists row, outcome = inr (Some row)
                     /\ json (row_or msg outcome) = Object row).
  { intros msg. split; [now exists msg | ].
    intros [m | [row | ]]; simpl; try discriminate.
    intros _. now exists row. }
  destruct (handle_shape r) as [[msg H] | [[msg H] | [msg H]]]; rewrite H.
  - simpl. discriminate.
  - apply Hall.
  - apply Hget.
Qed.

(** C9. For every operation and every pair of requests to it, whatever their
    path parameters, the statements they submit (when they submit one) have
    the same SQL text, the text of the operation; the values supplied by the
    caller are exactly the bind parameters, in the order of the placeholders,
    and they are the strings of the request unchanged. *)
Theorem sql_text_is_fixed (r1 r2 : request) (st1 st2 : statement)
  (ps1 ps2 : list string) :
  operation r1 = operation r2 ->
  submitted (handle r1) = Some (st1, ps1) ->
  submitted (handle r2) = Some (st2, ps2) ->
  text st1 = text st2
  /\ text st1 = text (statement_of r1)
  /\ ps1 = params r1 /\ ps2 = params r2.
Proof.
  intros Hop H1 H2.
  apply submitted_inv in H1. apply submitted_inv in H2.
  destruct H1 as [-> ->], H2 as [-> ->].
  repeat split.
  destruct r1, r2; simpl in Hop; try discriminate; reflexivity.
Qed.

Lemma sql_text_is_fixed_witness :
  text sql_drivers_search = text sql_drivers_search
  /\ text sql_drivers_search = text (statement_of (DriversSearch "sch"))
  /\ ["sch"] = params (DriversSearch "sch")
  /\ ["x'; DROP TABLE drivers; --"]
     = params (DriversSearch "x'; DROP TABLE drivers; --").
Proof.
  exact (sql_text_is_fixed (DriversSearch "sch")
           (DriversSearch "x'; DROP TABLE drivers; --")
           sql_drivers_search sql_drivers_search
           ["sch"] ["x'; DROP TABLE drivers; --"]
           eq_refl eq_refl eq_refl).
Defined.

(** C10. [isInt] accepts exactly the strings whose [Number] conversion is an
    integer: it rejects exactly those whose conversion is NaN, an infinity or
    a finite number with a fractional part.  The forms [5.0], [0x1A], [1e3]
    and digits padded with white space are accepted; a request whose integer
    parameters are accepted (and whose range is in order) submits its
    statement with the original strings as bind parameters, and is not
    answered with status 400. *)
Theorem isInt_accepts_what_Number_makes_an_integer :
  (forall v, isInt v = true <->
             exists q, JS.Number v = JS.Num (Double.DFin q) /\ integral q)
  /\ (forall v, isInt v = false <->
                JS.Number v = JS.NaN
                \/ (exists s, JS.Number v = JS.Num (Double.DInf s))
                \/ exists q, JS.Number v = JS.Num (Double.DFin q)
                             /\ ~ integral q)
  /\ Forall (fun v => isInt v = true) ["5.0"; "0x1A"; "1e3"; " 42 "]
  /\ (forall r,
        forallb isInt (integer_params r) = true -> inverted r = false ->
        submitted (handle r) = Some (statement_of r, params r)
        /\ forall db, status (serve db r) <> 400).
Proof.
  split; [exact isInt_true_iff | ].
  split.
  { intros v. split.
    - intros H. destruct (JS.Number v) as [|[s|q]] eqn:E; eauto.
      right. right. exists q. split; [reflexivity | ].
      intros Hq. assert (isInt v = true) by (apply isInt_true_iff; eauto).
      congruence.
    - intros H. destruct (isInt v) eqn:E; [ | reflexivity].
      apply isInt_true_iff in E. destruct E as [q [E Hq]].
      destruct H as [H | [[s H] | [q' [H Hq']]]]; rewrite E in H;
        try discriminate.
      inversion H; subst. contradiction. }
  split.
  { repeat constructor. }
  intros r Hint Hinv. split; [now apply accepted_submits | ].
  intros db. unfold serve.
  pose proof (accepted_submits r Hint Hinv) as Hs.
  destruct (handle_shape r) as [[msg H] | [[msg H] | [msg H]]];
    rewrite H in *; simpl in *; try discriminate.
  - destruct (rows_or_status msg (all db (statement_of r) (params r)))
      as [E | [E | E]]; rewrite E; discriminate.
  - destruct (row_or_status msg (get db (statement_of r) (params r)))
      as [E | [E | E]]; rewrite E; discriminate.
Qed.

(** ** The relational operators *)

Section OrderByFacts.
Context {A : Type} (le : A -> A -> bool).
Hypothesis le_total : forall x y, le x y = false -> le y x = true.

Lemma insert_perm (x : A) (l : list A) :
  Permutation (x :: l) (SQLite.insert le x l).
Proof.
  induction l as [ | y l IH]; simpl.
  - apply Permutation_refl.
  - destruct (le x y).
    + apply Permutation_refl.
    + eapply perm_trans; [apply perm_swap | ].
      now apply perm_skip.
Qed.

Lemma order_by_perm (l : list A) : Permutation l (order_by le l).
Proof.
  induction l as [ | x l IH]; simpl.
  - apply perm_nil.
  - eapply perm_trans; [ | apply insert_perm]. now apply perm_skip.
Qed.

Lemma order_by_In (x : A) (l : list A) : In x (order_by le l) <-> In x l.
Proof.
  split; apply Permutation_in;
    [apply Permutation_sym | ]; apply order_by_perm.
Qed.

Lemma order_by_nil (l : list A) : order_by le l = [] <-> l = [].
Proof.
  split; intros H.
  - apply Permutation_nil. rewrite <- H.
    apply Permutation_sym, order_by_perm.
  - now subst.
Qed.

Lemma insert_sorted (x : A) (l : list A) :
  Sorted (fun a b => le a b = true) l ->
  Sorted (fun a b => le a b = true) (SQLite.insert le x l).
Proof.
  induction 1 as [ | y l Hs IH Hhd]; simpl.
  - repeat constructor.
  - destruct (le x y) eqn:E.
    + constructor; [now constructor | now constructor].
    + constructor; [exact IH | ].
      destruct Hhd as [ | z l Hz]; simpl.
      * constructor. now apply le_total.
      * destruct (le x z); constructor;
          [now apply le_total | exact Hz].
Qed.

Lemma order_by_sorted (l : list A) :
  Sorted (fun a b => le a b = true) (order_by le l).
Proof.
  induction l as [ | x l IH]; simpl.
  - constructor.
  - now apply insert_sorted.
Qed.
End OrderByFacts.

Lemma Sorted_map_rel {A B : Type} (f : A -> B) (R : A -> A -> Prop)
  (R' : B -> B -> Prop) (l : list A) :
  (forall x y, R x y -> R' (f x) (f y)) ->
  Sorted R l -> Sorted R' (map f l).
Proof.
  intros HR. induction 1 as [ | x l Hs IH Hhd]; simpl; constructor.
  - exact IH.
  - destruct Hhd; simpl; constructor. now apply HR.
Qed.

Lemma in_join {A B : Type} (a : list A) (b : list B) (on : A -> B -> bool)
  (x : A) (y : B) :
  In (x, y) (join a b on) <-> In x a /\ In y b /\ on x y = true.
Proof.
  unfold join. rewrite in_flat_map. split.
  - intros [x' [Hx H]]. apply in_map_iff in H.
    destruct H as [y' [E Hy]]. inversion E; subst.
    apply filter_In in Hy. tauto.
  - intros [Hx [Hy Hon]]. exists x. split; [exact Hx | ].
    apply in_map. apply filter_In. tauto.
Qed.

(** *** The order of values is total *)

Lemma double_compare_antisym (a b : Double.double) :
  Double.compare b a = CompOpp (Double.compare a b).
Proof.
  destruct a as [[ | ] | p], b as [[ | ] | q]; simpl; try reflexivity.
  symmetry. apply Qcompare_antisym.
Qed.

Lemma compare_antisym (a b : value) :
  SQLite.compare b a = CompOpp (SQLite.compare a b).
Proof.
  destruct a, b; try reflexivity;
    try apply Z.compare_antisym; try apply String.compare_antisym;
    apply double_compare_antisym.
Qed.

Lemma leb_total (a b : value) : leb a b = false -> leb b a = true.
Proof.
  unfold leb. rewrite (compare_antisym a b).
  destruct (SQLite.compare a b); simpl; congruence.
Qed.

Lemma leb2_total (a1 a2 b1 b2 : value) :
  leb2 a1 a2 b1 b2 = false -> leb2 b1 b2 a1 a2 = true.
Proof.
  unfold leb2. rewrite (compare_antisym a1 b1).
  destruct (SQLite.compare a1 b1); simpl; try congruence.
  apply leb_total.
Qed.

Lemma by_key_total {A : Type} (key : A -> value) (x y : A) :
  by_key key x y = false -> by_key key y x = true.
Proof. apply leb_total. Qed.

Lemma by_keys_total {A : Type} (key1 key2 : A -> value) (x y : A) :
  by_keys key1 key2 x y = false -> by_keys key1 key2 y x = true.
Proof. apply leb2_total. Qed.

(** On integers the order of values is the order of the integers. *)
Lemma leb_Integer (i j : Z) : leb (Integer i) (Integer j) = true <-> i <= j.
Proof.
  unfold leb. simpl. unfold Z.le.
  destruct (i ?= j); split; congruence.
Qed.

(** *** Equal values *)

Lemma double_compare_Eq_trans (a b c : Double.double) :
  Double.compare a b = Eq -> Double.compare b c = Eq ->
  Double.compare a c = Eq.
Proof.
  destruct a as [[ | ] | p], b as [[ | ] | q], c as [[ | ] | r]; simpl;
    try discriminate; try reflexivity.
  rewrite <- !Qeq_alt. intros H1 H2. now rewrite H1.
Qed.

Lemma Z_compare_as_double (i j : Z) :
  (i ?= j) = Double.compare (Double.DFin (i # 1)) (Double.DFin (j # 1)).
Proof. simpl. unfold Qcompare. simpl. now rewrite !Z.mul_1_r. Qed.

Lemma compare_Eq_sym (a b : value) :
  SQLite.compare a b = Eq -> SQLite.compare b a = Eq.
Proof. intros H. rewrite compare_antisym, H. reflexivity. Qed.

Lemma compare_Eq_trans (a b c : value) :
  SQLite.compare a b = Eq -> SQLite.compare b c = Eq ->
  SQLite.compare a c = Eq.
Proof.
  destruct a, b, c; cbv beta iota delta [SQLite.compare];
    try discriminate; try reflexivity;
    rewrite ?Z_compare_as_double;
    try apply double_compare_Eq_trans.
  all: intros H1 H2; apply String.compare_eq_iff in H1; subst; exact H2.
Qed.

(** Two values equal to a third are equal. *)
Lemma eq_common (a b c : value) :
  eq a c = true -> eq b c = true -> eq a b = true.
Proof.
  unfold eq. destruct (is_null a), (is_null b), (is_null c); simpl;
    try discriminate.
  destruct (SQLite.compare a c) eqn:E1; try discriminate.
  destruct (SQLite.compare b c) eqn:E2; try discriminate.
  intros _ _. apply compare_Eq_sym in E2.
  now rewrite (compare_Eq_trans a c b E1 E2).
Qed.

(** [eq] on an integer column that holds an integer, against a parameter
    that reads as an integer. *)
Lemma eq_Integer (i j : Z) : eq (Integer i) (Integer j) = (i =? j).
Proof.
  unfold eq. simpl. rewrite Z.eqb_compare. now destruct (i ?= j).
Qed.

(** A predicate that at most one position of a list satisfies selects
    exactly the row that satisfies it. *)
Lemma filter_unique {A : Type} (P : A -> bool) (l : list A) (x : A) :
  (forall i j y z, nth_error l i = Some y -> nth_error l j = Some z ->
                   P y = true -> P z = true -> i = j) ->
  In x l -> P x = true -> filter P l = [x].
Proof.
  induction l as [ | a l IH]; intros Hu Hin Hx; [contradiction | ].
  assert (Htail : forall i j y z,
             nth_error l i = Some y -> nth_error l j = Some z ->
             P y = true -> P z = true -> i = j).
  { intros i j y z Hy Hz Py Pz.
    assert (S i = S j) by (apply (Hu (S i) (S j) y z); assumption).
    congruence. }
  simpl. destruct (P a) eqn:Pa.
  - assert (Hnone : filter P l = []).
    { destruct (filter P l) as [ | y l'] eqn:E; [reflexivity | ].
      assert (Hy : In y (filter P l)) by (rewrite E; left; reflexivity).
      apply filter_In in Hy. destruct Hy as [Hy Py].
      apply In_nth_error in Hy. destruct Hy as [k Hk].
      assert (O = S k) by (apply (Hu O (S k) a y); auto).
      discriminate. }
    rewrite Hnone. destruct Hin as [-> | Hin]; [reflexivity | ].
    apply In_nth_error in Hin. destruct Hin as [k Hk].
    assert (O = S k) by (apply (Hu O (S k) a x); auto).
    discriminate.
  - destruct Hin as [-> | Hin]; [congruence | ].
    now apply IH.
Qed.

(** ** Decimal numerals *)

Lemma round_pos_exact (n : Z) :
  0 < n < 2 ^ 53 ->
  exists q, Double.round_pos n 1 = Double.DFin q /\ q == inject_Z n.
Proof.
  intros Hn.
  assert (Hlog : 0 <= Z.log2 n < 53).
  { split; [apply Z.log2_nonneg | ]. apply Z.log2_lt_pow2; lia. }
  assert (Hspec : 2 ^ Z.log2 n <= n) by (apply Z.log2_spec; lia).
  unfold Double.round_pos.
  change (Z.log2 1) with 0. rewrite Z.sub_0_r.
  set (e0 := Z.log2 n) in *.
  assert (E1 : Double.scale_den 1 e0 = 2 ^ e0).
  { unfold Double.scale_den. destruct (0 <=? e0) eqn:E; [lia | lia]. }
  assert (E2 : Double.scale_num n e0 = n).
  { unfold Double.scale_num. destruct (0 <=? e0) eqn:E; [lia | lia]. }
  rewrite E1, E2.
  destruct (2 ^ e0 <=? n) eqn:E3; [ | lia].
  replace (Z.max (e0 - 52) (-1074)) with (e0 - 52) by lia.
  set (k := e0 - 52) in *.
  unfold Double.scale_num, Double.scale_den.
  destruct (0 <=? k) eqn:Ek.
  - assert (k = 0) by lia. subst k. rewrite H.
    change (2 ^ 0) with 1. rewrite !Z.mul_1_r, Z.div_1_r, Z.mod_1_r.
    change (2 * 0 <? 1) with true. cbv iota.
    destruct (2 ^ 1024 <=? n) eqn:E4; [lia | ].
    exists (n # 1). split; [reflexivity | ].
    unfold Qeq, inject_Z. simpl. reflexivity.
  - rewrite Z.div_1_r, Z.mod_1_r.
    change (2 * 0 <? 1) with true. cbv iota.
    eexists. split; [reflexivity | ].
    unfold Qeq, inject_Z. simpl.
    rewrite Z2Pos.id by (apply Z.pow_pos_nonneg; lia). lia.
Qed.

Ltac each_digit d :=
  let H := fresh in
  assert (H : d = 0 \/ d = 1 \/ d = 2 \/ d = 3 \/ d = 4 \/ d = 5 \/ d = 6
              \/ d = 7 \/ d = 8 \/ d = 9) by lia;
  repeat (destruct H as [H | H]; [subst d | ]); [ .. | subst d].

Lemma digit_in_char (d : Z) :
  0 <= d <= 9 -> Double.digit_in 10 (digit_char d) = Some d.
Proof. intros H. each_digit d; reflexivity. Qed.

Lemma skip_white_digit (d : Z) (rest : string) :
  0 <= d <= 9 -> JS.skip_white (String (digit_char d) rest) = None.
Proof.
  intros H. destruct rest as [ | c2 [ | c3 s3]]; each_digit d; reflexivity.
Qed.

Lemma skip_space_digit (d : Z) (rest : string) :
  0 <= d <= 9 -> skip_space (String (digit_char d) rest) = None.
Proof. intros H. each_digit d; reflexivity. Qed.

Lemma read_sign_digit (d : Z) (rest : string) :
  0 <= d <= 9 ->
  Double.read_sign (String (digit_char d) rest)
  = (false, String (digit_char d) rest).
Proof. intros H. each_digit d; reflexivity. Qed.

Lemma not_Infinity_digit (d : Z) (rest : string) :
  0 <= d <= 9 ->
  String.prefix "Infinity" (String (digit_char d) rest) = false.
Proof. intros H. each_digit d; reflexivity. Qed.

Lemma read_prefixed_digit (d : Z) (rest : string) :
  0 <= d <= 9 -> (d = 0 -> rest = "") ->
  JS.read_prefixed (String (digit_char d) rest) = None.
Proof.
  intros H H0. each_digit d; try reflexivity.
  now rewrite H0.
Qed.

Lemma decimal_fuel_S (fuel : nat) (n : Z) (acc : string) :
  decimal_fuel (S fuel) n acc
  = if n <? 10 then String (digit_char n) acc
    else decimal_fuel fuel (n / 10) (String (digit_char (n mod 10)) acc).
Proof. reflexivity. Qed.

Lemma half_bound (fuel : nat) (n : Z) :
  0 <= n < 2 ^ Z.of_nat (S (S fuel)) -> 10 <= n ->
  0 <= n / 10 < 2 ^ Z.of_nat (S fuel).
Proof.
  intros Hn H10. split; [apply Z.div_pos; lia | ].
  apply Z.div_lt_upper_bound; [lia | ].
  rewrite (Nat2Z.inj_succ (S fuel)), Z.pow_succ_r in Hn by lia.
  lia.
Qed.

(** Reading back what [decimal_fuel] wrote: the digits of [n], at least
    one, and then whatever follows. *)
Lemma read_decimal_fuel (fuel : nat) :
  forall n acc a c,
    0 <= n < 2 ^ Z.of_nat (S fuel) ->
    exists k,
      0 < k
      /\ Double.read_digits 10 (decimal_fuel (S fuel) n acc) a c
         = Double.read_digits 10 acc (a * 10 ^ k + n) (c + k).
Proof.
  induction fuel as [ | fuel IH]; intros n acc a c Hn;
    rewrite decimal_fuel_S; destruct (n <? 10) eqn:E.
  - exists 1. split; [lia | ].
    cbn [Double.read_digits]. rewrite digit_in_char by lia.
    now rewrite Z.pow_1_r.
  - change (2 ^ Z.of_nat 1) with 2 in Hn. lia.
  - exists 1. split; [lia | ].
    cbn [Double.read_digits]. rewrite digit_in_char by lia.
    now rewrite Z.pow_1_r.
  - assert (Hdiv : 0 <= n / 10 < 2 ^ Z.of_nat (S fuel))
      by (apply half_bound; lia).
    destruct (IH (n / 10) (String (digit_char (n mod 10)) acc) a c Hdiv)
      as [k [Hk Hread]].
    exists (k + 1). split; [lia | ].
    rewrite Hread. cbn [Double.read_digits].
    rewrite digit_in_char by (pose proof (Z.mod_pos_bound n 10); lia).
    f_equal; [ | lia].
    rewrite Z.pow_add_r, Z.pow_1_r by lia.
    pose proof (Z.div_mod n 10). lia.
Qed.

(** The numeral starts with a digit, which is a zero only for [0]. *)
Lemma decimal_fuel_head (fuel : nat) :
  forall n acc,
    0 <= n < 2 ^ Z.of_nat (S fuel) ->
    exists d rest,
      decimal_fuel (S fuel) n acc = String (digit_char d) rest
      /\ 0 <= d <= 9 /\ (d = 0 -> n = 0 /\ rest = acc).
Proof.
  induction fuel as [ | fuel IH]; intros n acc Hn;
    rewrite decimal_fuel_S; destruct (n <? 10) eqn:E.
  - exists n, acc. repeat split; lia.
  - change (2 ^ Z.of_nat 1) with 2 in Hn. lia.
  - exists n, acc. repeat split; lia.
  - assert (Hdiv : 0 <= n / 10 < 2 ^ Z.of_nat (S fuel))
      by (apply half_bound; lia).
    destruct (IH (n / 10) (String (digit_char (n mod 10)) acc) Hdiv)
      as [d [rest (Hd & Hr & H0)]].
    exists d, rest. split; [exact Hd | split; [exact Hr | ]].
    intros Hz. destruct (H0 Hz) as [Hq _].
    assert (n < 10) by (apply Z.div_small_iff in Hq; lia). lia.
Qed.

Lemma decimal_bound (n : Z) :
  0 <= n -> 0 <= n < 2 ^ Z.of_nat (S (Z.to_nat (Z.log2 n))).
Proof.
  intros Hn. split; [exact Hn | ].
  rewrite Nat2Z.inj_succ, Z2Nat.id by apply Z.log2_nonneg.
  destruct (Z.eq_dec n 0) as [-> | Hz]; [reflexivity | ].
  apply Z.log2_spec. lia.
Qed.

(** The numeral of [n] read as a decimal literal: its digits, and nothing
    left. *)
Lemma read_decimal (n : Z) :
  0 <= n ->
  exists k, 0 < k /\ Double.read_digits 10 (decimal n) 0 0 = (n, k, "").
Proof.
  intros Hn.
  destruct (read_decimal_fuel _ n "" 0 0 (decimal_bound n Hn))
    as [k [Hk H]].
  exists k. split; [exact Hk | ]. unfold decimal. rewrite H.
  cbn [Double.read_digits]. reflexivity.
Qed.

Lemma decimal_head (n : Z) :
  0 <= n ->
  exists d rest,
    decimal n = String (digit_char d) rest
    /\ 0 <= d <= 9 /\ (d = 0 -> rest = "").
Proof.
  intros Hn.
  destruct (decimal_fuel_head _ n "" (decimal_bound n Hn))
    as [d [rest (H & Hd & H0)]].
  exists d, rest. repeat split; try assumption; try lia.
  intros Hz. now destruct (H0 Hz).
Qed.

(** A natural number below 2^53, written in decimal, converts to itself. *)
Lemma Number_decimal (n : Z) :
  0 <= n < 2 ^ 53 ->
  exists q, JS.Number (decimal n) = JS.Num (Double.DFin q) /\ q == inject_Z n.
Proof.
  intros Hn.
  destruct (decimal_head n) as [d [rest (Hs & Hd & H0)]]; [lia | ].
  destruct (read_decimal n) as [k [Hk Hread]]; [lia | ].
  assert (Hunsigned :
    Double.read_unsigned_decimal (decimal n) = Some (n * 10 ^ 0 # 1, "")).
  { unfold Double.read_unsigned_decimal. rewrite Hread.
    destruct (0 <? k + 0) eqn:E; [reflexivity | lia]. }
  unfold JS.Number, JS.trim_start, Double.drop_white.
  rewrite Hs. cbn [String.length Double.drop_white_fuel].
  rewrite skip_white_digit by exact Hd.
  rewrite read_prefixed_digit by assumption.
  unfold JS.read_signed_decimal.
  rewrite read_sign_digit, not_Infinity_digit by exact Hd.
  rewrite <- Hs, Hunsigned.
  change (JS.all_white "") with true. cbv iota.
  unfold Double.round_double.
  change (Qnum (n * 10 ^ 0 # 1)) with (n * 1).
  change (Qden (n * 10 ^ 0 # 1)) with 1%positive.
  rewrite Z.mul_1_r.
  destruct n as [ | p | p]; [ | | lia].
  - exists 0%Q. split; reflexivity.
  - destruct (round_pos_exact (Zpos p) ltac:(lia)) as [q [Hq Eq]].
    exists q. rewrite Hq. split; [reflexivity | exact Eq].
Qed.

Lemma isInt_decimal (n : Z) : 0 <= n < 2 ^ 53 -> isInt (decimal n) = true.
Proof.
  intros Hn. apply isInt_true_iff.
  destruct (Number_decimal n Hn) as [q [H Eq]].
  exists q. split; [exact H | ]. now exists n.
Qed.

(** Written in decimal, two natural numbers below 2^53 compare as they
    are. *)
Lemma lt_decimal (a b : Z) :
  0 <= a < 2 ^ 53 -> 0 <= b < 2 ^ 53 ->
  JS.lt (JS.Number (decimal a)) (JS.Number (decimal b)) = (a <? b).
Proof.
  intros Ha Hb.
  destruct (Number_decimal a Ha) as [p [-> Ep]].
  destruct (Number_decimal b Hb) as [q [-> Eq]].
  unfold JS.lt, Double.compare.
  assert (E : (p ?= q)%Q = (a ?= b)).
  { rewrite (Qcompare_comp p (inject_Z a) Ep q (inject_Z b) Eq).
    unfold Qcompare, inject_Z. simpl. now rewrite !Z.mul_1_r. }
  rewrite E. unfold Z.ltb. reflexivity.
Qed.

(** The data store reads the numeral of a 64-bit natural number as that
    integer. *)
Lemma numeric_of_text_decimal (n : Z) :
  0 <= n <= int64_max -> numeric_of_text (decimal n) = Some (Integer n).
Proof.
  intros Hn.
  destruct (decimal_head n) as [d [rest (Hs & Hd & H0)]]; [lia | ].
  destruct (read_decimal n) as [k [Hk Hread]]; [lia | ].
  unfold numeric_of_text, Double.drop_white.
  rewrite Hs. cbn [String.length Double.drop_white_fuel].
  rewrite skip_space_digit, read_sign_digit by exact Hd.
  rewrite <- Hs, Hread.
  change (Double.only_white skip_space "") with true.
  unfold int64_min, int64_max in *.
  destruct (0 <? k) eqn:E1; [ | lia].
  destruct (- 2 ^ 63 <=? n) eqn:E2; [ | lia].
  destruct (n <=? 2 ^ 63 - 1) eqn:E3; [ | lia].
  reflexivity.
Qed.

Lemma bound_decimal (name : string) (n : Z) :
  column_affinity name = INTEGER -> 0 <= n <= int64_max ->
  bound name (decimal n) = Integer n.
Proof.
  intros Ha Hn. unfold bound. rewrite Ha. unfold numeric_affinity.
  now rewrite numeric_of_text_decimal.
Qed.

(** A row whose integer column holds [n] is selected by the numeral of
    [n]. *)
Lemma col_eq_decimal (name : string) (r : row) (n : Z) :
  column_affinity name = INTEGER -> 0 <= n <= int64_max ->
  col name r = Integer n -> col_eq name r (decimal n) = true.
Proof.
  intros Ha Hn Hc. unfold col_eq.
  rewrite Hc, bound_decimal, eq_Integer by assumption.
  apply Z.eqb_refl.
Qed.

(** ** Ordered collections *)

Lemma rows_or_nonempty (msg : string) (rows : list row) :
  rows <> [] -> rows_or msg (inr rows) = ok (Array rows).
Proof. destruct rows; [congruence | reflexivity]. Qed.

Lemma in_not_nil {A : Type} (x : A) (l : list A) : In x l -> l <> [].
Proof. destruct l; [contradiction | discriminate]. Qed.

Lemma map_not_nil {A B : Type} (f : A -> B) (l : list A) :
  l <> [] -> map f l <> [].
Proof. destruct l; [congruence | discriminate]. Qed.

Lemma order_by_not_nil {A : Type} (le : A -> A -> bool) (l : list A) :
  l <> [] -> order_by le l <> [].
Proof. intros H E. apply H. now apply (order_by_nil le). Qed.

Lemma eq_bound_decimal (name : string) (r : row) (n : Z) :
  column_affinity name = INTEGER -> safe n ->
  col_eq name r (decimal n) = eq (col name r) (Integer n).
Proof.
  intros Ha Hn. unfold col_eq. rewrite bound_decimal; [reflexivity | exact Ha | ].
  unfold safe, int64_max in *. lia.
Qed.

(** Operation 11 on a parameter that passes validation and selects a
    race. *)
Lemma races_season_ordered (db : Database) (year : string) :
  fault db = None -> isInt year = true ->
  (exists r, In r (races db) /\ col_eq "year" r year = true) ->
  exists rows,
    serve db (RacesSeason year) = {| status := 200; json := Array rows |}
    /\ rows <> [] /\ nondecreasing "round" rows.
Proof.
  intros Hf Hy [r [Hr Hm]].
  unfold serve. simpl. unfold get_races_season. rewrite Hy. simpl.
  unfold all. rewrite Hf. simpl.
  assert (Hne : order_by (by_key (col "round"))
                  (filter (fun r => col_eq "year" r year) (races db)) <> []).
  { apply order_by_not_nil. apply (in_not_nil r). apply filter_In. tauto. }
  eexists. split; [now apply rows_or_nonempty | split; [exact Hne | ]].
  apply (order_by_sorted (by_key (col "round"))). apply by_key_total.
Qed.

(** Operation 15 on a parameter that passes validation and selects a result
    whose race, driver and constructor are in the dataset. *)
Lemma results_ordered (db : Database) (raceId : string) :
  fault db = None -> isInt raceId = true ->
  (exists r ra d c,
      In r (results db) /\ In ra (races db) /\ In d (drivers db)
      /\ In c (constructors db)
      /\ col_eq "raceId" r raceId = true
      /\ eq (col "raceId" ra) (col "raceId" r) = true
      /\ eq (col "driverId" d) (col "driverId" r) = true
      /\ eq (col "constructorId" c) (col "constructorId" r) = true) ->
  exists rows,
    serve db (Results raceId) = {| status := 200; json := Array rows |}
    /\ rows <> [] /\ nondecreasing "grid" rows.
Proof.
  intros Hf Hi [r [ra [d [c H]]]].
  destruct H as (Hr & Hra & Hd & Hc & Hm & Era & Ed & Ec).
  unfold serve. simpl. unfold get_results. rewrite Hi. simpl.
  unfold all. rewrite Hf. simpl.
  match goal with
  | |- context [map ?p (order_by ?le ?l)] =>
      assert (Hne : order_by le l <> []);
      [ | set (proj := p) in *; set (tuples := order_by le l) in * ]
  end.
  { apply order_by_not_nil. apply (in_not_nil (r, ra, d, c)).
    apply filter_In. split; [ | exact Hm].
    apply in_join. split; [ | split; [exact Hc | exact Ec]].
    apply in_join. split; [ | split; [exact Hd | exact Ed]].
    apply in_join. auto. }
  exists (map proj tuples).
  split; [apply rows_or_nonempty; now apply map_not_nil | split].
  - now apply map_not_nil.
  - unfold nondecreasing.
    apply Sorted_map_rel
      with (R := fun x y =>
                   by_key (fun t => col "grid" (fst (fst (fst t)))) x y
                   = true).
    + intros [[[r1 ra1] d1] c1] [[[r2 ra2] d2] c2] H. exact H.
    + apply order_by_sorted. apply by_key_total.
Qed.

(** C6. With the data store in working order: for every year that has at
    least one race, operation 11 (requested with the year in decimal)
    returns status 200 with a non-empty list that is non-decreasing in
    [round]; and for every race id that has results, operation 15 returns
    status 200 with a non-empty list that is non-decreasing in [grid]. *)
Theorem races_and_results_are_ordered (db : Database) (year raceId : Z) :
  fault db = None -> safe year -> safe raceId ->
  ((exists r, In r (races db) /\ col "year" r = Integer year) ->
   exists rows,
     serve db (RacesSeason (decimal year))
     = {| status := 200; json := Array rows |}
     /\ rows <> [] /\ nondecreasing "round" rows)
  /\ (has_results db raceId ->
      exists rows,
        serve db (Results (decimal raceId))
        = {| status := 200; json := Array rows |}
        /\ rows <> [] /\ nondecreasing "grid" rows).
Proof.
  intros Hf Hy Hi. split.
  - intros [r [Hr Ey]].
    apply races_season_ordered;
      [exact Hf | now apply isInt_decimal | ].
    exists r. split; [exact Hr | ].
    rewrite eq_bound_decimal, Ey, eq_Integer by (reflexivity || assumption).
    apply Z.eqb_refl.
  - intros [r [ra [d [c H]]]].
    destruct H as (Hr & Hra & Hd & Hc & Hm & Hj).
    apply results_ordered;
      [exact Hf | now apply isInt_decimal | ].
    exists r, ra, d, c. repeat (split; [assumption | ]).
    split; [ | exact Hj].
    rewrite eq_bound_decimal, Hm, eq_Integer by (reflexivity || assumption).
    apply Z.eqb_refl.
Qed.

Lemma races_and_results_are_ordered_witness :
  (exists rows,
      serve Sample.db (RacesSeason "2022")
      = {| status := 200; json := Array rows |}
      /\ rows <> [] /\ nondecreasing "round" rows)
  /\ (exists rows,
         serve Sample.db (Results "1077")
         = {| status := 200; json := Array rows |}
         /\ rows <> [] /\ nondecreasing "grid" rows).
Proof.
  assert (Hs : forall n, 0 <= n < 10000 -> safe n)
    by (unfold safe; intros; lia).
  destruct (races_and_results_are_ordered Sample.db 2022 1077 eq_refl
              (Hs 2022 ltac:(lia)) (Hs 1077 ltac:(lia))) as [H1 H2].
  split.
  - apply H1.
    exists (Sample.race 1077 2022 4 21 "Emilia Romagna Grand Prix"
              "2022-04-24").
    split; [simpl; tauto | reflexivity].
  - apply H2.
    exists (Sample.result 25401 1077 830 9 1 (Integer 1)),
      (Sample.race 1077 2022 4 21 "Emilia Romagna Grand Prix" "2022-04-24"),
      (Sample.driver 830 "max_verstappen" "VER" "Max" "Verstappen"),
      (Sample.constructor 9 "red_bull" "Red Bull" "Austrian").
    repeat split; simpl; tauto.
Defined.

(** ** Single races *)

(** Operation 10 on a parameter that passes validation and selects a race
    whose circuit is in the dataset. *)
Lemma race_lookup (db : Database) (raceId : string) :
  fault db = None ->
  isInt raceId = true ->
  (exists r c,
      In r (races db) /\ In c (circuits db)
      /\ col_eq "raceId" r raceId = true
      /\ eq (col "circuitId" c) (col "circuitId" r) = true) ->
  exists r c obj,
    In r (races db) /\ In c (circuits db)
    /\ col_eq "raceId" r raceId = true
    /\ eq (col "circuitId" c) (col "circuitId" r) = true
    /\ serve db (Race raceId) = {| status := 200; json := Object obj |}
    /\ obj = [("raceId", col "raceId" r); ("year", col "year" r);
              ("round", col "round" r); ("name", col "name" r);
              ("date", col "date" r); ("time", col "time" r);
              ("url", col "url" r); ("circuitName", col "name" c);
              ("location", col "location" c); ("country", col "country" c)]
    /\ ~ In "circuitId" (columns obj).
Proof.
  intros Hf Hi [r0 [c0 (Hr0 & Hc0 & Hm0 & Ej0)]].
  unfold serve. simpl. unfold get_race. rewrite Hi. simpl.
  unfold get, all. rewrite Hf. simpl.
  match goal with
  | |- context [map ?p (filter ?w ?l)] =>
      set (proj := p); set (pairs := filter w l)
  end.
  assert (Hne : pairs <> []).
  { apply (in_not_nil (r0, c0)). apply filter_In. split; [ | exact Hm0].
    apply in_join. auto. }
  destruct pairs as [ | [r c] pairs'] eqn:E; [congruence | ].
  assert (Hin' : In (r, c) (filter
    (fun rc : row * row => col_eq "raceId" (fst rc) raceId)
    (join (races db) (circuits db)
       (fun r c => eq (col "circuitId" c) (col "circuitId" r))))).
  { fold pairs. rewrite E. left. reflexivity. }
  clear E. apply filter_In in Hin'. destruct Hin' as [Hj Hm].
  apply in_join in Hj. destruct Hj as (Hr & Hc & Ej).
  exists r, c. eexists. simpl.
  repeat (split; [eassumption || reflexivity | ]).
  simpl. intuition discriminate.
Qed.

(** C7. With the data store in working order, for every id of a race whose
    circuit is in the dataset, operation 10 (requested with the id in
    decimal) returns status 200 with one object: the race's own columns
    raceId, year, round, name, date, time and url, followed by circuitName,
    location and country, which are the name, location and country of the
    joined circuit row.  No column of the object is called circuitId. *)
Theorem race_inlines_its_circuit (db : Database) (raceId : Z) :
  fault db = None ->
  safe raceId ->
  (exists r c,
      In r (races db) /\ In c (circuits db)
      /\ col "raceId" r = Integer raceId
      /\ eq (col "circuitId" c) (col "circuitId" r) = true) ->
  exists r c obj,
    In r (races db) /\ In c (circuits db)
    /\ eq (col "raceId" r) (Integer raceId) = true
    /\ eq (col "circuitId" c) (col "circuitId" r) = true
    /\ serve db (Race (decimal raceId))
       = {| status := 200; json := Object obj |}
    /\ obj = [("raceId", col "raceId" r); ("year", col "year" r);
              ("round", col "round" r); ("name", col "name" r);
              ("date", col "date" r); ("time", col "time" r);
              ("url", col "url" r); ("circuitName", col "name" c);
              ("location", col "location" c); ("country", col "country" c)]
    /\ ~ In "circuitId" (columns obj).
Proof.
  intros Hf Hi [r0 [c0 (Hr0 & Hc0 & Hm0 & Ej0)]].
  destruct (race_lookup db (decimal raceId) Hf (isInt_decimal raceId Hi))
    as [r [c [obj H]]].
  { exists r0, c0. repeat (split; [assumption | ]).
    split; [ | exact Ej0].
    rewrite eq_bound_decimal, Hm0, eq_Integer by (reflexivity || assumption).
    apply Z.eqb_refl. }
  exists r, c, obj.
  rewrite eq_bound_decimal in H by (reflexivity || assumption).
  exact H.
Qed.

Lemma race_inlines_its_circuit_witness :
  exists r c obj,
    In r (races Sample.db) /\ In c (circuits Sample.db)
    /\ eq (col "raceId" r) (Integer 1077) = true
    /\ eq (col "circuitId" c) (col "circuitId" r) = true
    /\ serve Sample.db (Race "1077")
       = {| status := 200; json := Object obj |}
    /\ obj = [("raceId", col "raceId" r); ("year", col "year" r);
              ("round", col "round" r); ("name", col "name" r);
              ("date", col "date" r); ("time", col "time" r);
              ("url", col "url" r); ("circuitName", col "name" c);
              ("location", col "location" c); ("country", col "country" c)]
    /\ ~ In "circuitId" (columns obj).
Proof.
  apply (race_inlines_its_circuit Sample.db 1077 eq_refl).
  - unfold safe. lia.
  - exists (Sample.race 1077 2022 4 21 "Emilia Romagna Grand Prix"
              "2022-04-24"),
      (Sample.circuit 21 "imola" "Autodromo Enzo e Dino Ferrari" "Imola"
         "Italy").
    repeat split; simpl; tauto.
Defined.

(** Operation 12 on parameters that pass validation and read as the year
    and the round of a race. *)
Lemma race_season_round_lookup (db : Database) (year round : string)
  (Y R : Z) (race : row) :
  fault db = None ->
  isInt year = true -> isInt round = true ->
  bound "year" year = Integer Y -> bound "round" round = Integer R ->
  round_unique_in_season (races db) ->
  In race (races db) ->
  col "year" race = Integer Y -> col "round" race = Integer R ->
  serve db (RaceSeasonRound year round)
  = {| status := 200; json := Object race |}
  /\ filter (fun r => col_eq "year" r year && col_eq "round" r round)
       (races db) = [race].
Proof.
  intros Hf Hy Hr HY HR Hu Hin Ey Er.
  assert (Hsel : filter (fun r => col_eq "year" r year
                                  && col_eq "round" r round) (races db)
                 = [race]).
  { apply filter_unique; [ | exact Hin | ].
    - intros i j r1 r2 H1 H2 P1 P2.
      apply andb_true_iff in P1. apply andb_true_iff in P2.
      destruct P1 as [P1y P1r], P2 as [P2y P2r].
      apply (Hu i j r1 r2 H1 H2).
      + exact (eq_common _ _ _ P1y P2y).
      + exact (eq_common _ _ _ P1r P2r).
    - unfold col_eq. rewrite Ey, Er, HY, HR, !eq_Integer, !Z.eqb_refl.
      reflexivity. }
  split; [ | exact Hsel].
  unfold serve. simpl. unfold get_race_season_round.
  rewrite Hy, Hr. simpl. unfold get, all. rewrite Hf. simpl.
  rewrite Hsel. reflexivity.
Qed.

(** C8. Given that round is unique within a season and the data store is in
    working order: for every year and round that some race has, operation
    12 (requested with both in decimal, as in /api/races/season/2022/4)
    returns status 200 with that race as its one object, whose year and
    round are the ones requested; it is the only row that the statement
    selects. *)
Theorem race_by_season_and_round (db : Database) (year round : Z)
  (race : row) :
  fault db = None ->
  round_unique_in_season (races db) ->
  safe year -> safe round ->
  In race (races db) ->
  col "year" race = Integer year -> col "round" race = Integer round ->
  serve db (RaceSeasonRound (decimal year) (decimal round))
  = {| status := 200; json := Object race |}
  /\ col "year" race = Integer year /\ col "round" race = Integer round
  /\ filter (fun r => col_eq "year" r (decimal year)
                      && col_eq "round" r (decimal round))
       (races db) = [race].
Proof.
  intros Hf Hu Hy Hr Hin Ey Er.
  assert (H64 : forall n, safe n -> 0 <= n <= int64_max)
    by (unfold safe, int64_max; intros; lia).
  destruct (race_season_round_lookup db (decimal year) (decimal round)
              year round race Hf (isInt_decimal year Hy)
              (isInt_decimal round Hr)
              (bound_decimal "year" year eq_refl (H64 year Hy))
              (bound_decimal "round" round eq_refl (H64 round Hr))
              Hu Hin Ey Er) as [H1 H2].
  auto.
Qed.

Lemma race_by_season_and_round_witness :
  let race := Sample.race 1077 2022 4 21 "Emilia Romagna Grand Prix"
                "2022-04-24" in
  serve Sample.db (RaceSeasonRound "2022" "4")
  = {| status := 200; json := Object race |}
  /\ col "year" race = Integer 2022 /\ col "round" race = Integer 4
  /\ filter (fun r => col_eq "year" r "2022" && col_eq "round" r "4")
       (races Sample.db) = [race].
Proof.
  apply (race_by_season_and_round Sample.db 2022 4); try reflexivity.
  - intros i j r1 r2 H1 H2.
    destruct i as [ | [ | [ | [ | [ | i]]]]];
      simpl in H1; inversion H1; subst;
      try (destruct i; discriminate);
      destruct j as [ | [ | [ | [ | [ | j]]]]];
      simpl in H2; inversion H2; subst;
      try (destruct j; discriminate);
      try reflexivity; vm_compute; intros; discriminate.
  - unfold safe. lia.
  - unfold safe. lia.
  - simpl. tauto.
Defined.

(** ** Year ranges *)

Lemma between_integers (y S E : Z) :
  between (Integer y) (Integer S) (Integer E) = true <-> S <= y <= E.
Proof.
  unfold between, le. simpl. rewrite andb_true_iff, !leb_Integer. tauto.
Qed.

(** Operations 14 and 17 on bounds that pass validation, in order: the
    rows are those that the BETWEEN of the statement selects. *)
Lemma range_rows (db : Database) (ref start end_ : string) :
  isInt start = true -> isInt end_ = true ->
  JS.lt (JS.Number end_) (JS.Number start) = false ->
  submitted (handle (RacesCircuitSeasons ref start end_))
  = Some (sql_races_circuit_seasons, [ref; start; end_])
  /\ submitted (handle (ResultsDriverSeasons ref start end_))
     = Some (sql_results_driver_seasons, [ref; start; end_])
  /\ (fault db = None ->
      (exists msg rows,
          serve db (RacesCircuitSeasons ref start end_)
          = rows_or msg (inr rows)
          /\ forall race,
              In race rows
              <-> exists c,
                  In race (races db) /\ In c (circuits db)
                  /\ eq (col "circuitId" c) (col "circuitId" race) = true
                  /\ col_eq "circuitRef" c ref = true
                  /\ col_between "year" race start end_ = true)
      /\ (exists msg rows,
             serve db (ResultsDriverSeasons ref start end_)
             = rows_or msg (inr rows)
             /\ forall obj,
                 In obj rows
                 <-> exists r d ra c,
                     In r (results db) /\ In d (drivers db)
                     /\ In ra (races db) /\ In c (constructors db)
                     /\ eq (col "driverId" d) (col "driverId" r) = true
                     /\ eq (col "raceId" ra) (col "raceId" r) = true
                     /\ eq (col "constructorId" c) (col "constructorId" r)
                        = true
                     /\ col_eq "driverRef" d ref = true
                     /\ col_between "year" ra start end_ = true
                     /\ obj = driver_result (r, d, ra, c))).
Proof.
  intros Hs He Hlt.
  unfold serve. simpl.
  unfold get_races_circuit_seasons, get_results_driver_seasons.
  rewrite Hs, He, Hlt. simpl.
  split; [reflexivity | split; [reflexivity | ]].
  intros Hf. unfold all. rewrite Hf. simpl. split.
  - eexists. eexists. split; [reflexivity | ].
    intros race. rewrite in_map_iff. split.
    + intros [[race' c] [E Hin]]. simpl in E. subst race'.
      apply order_by_In in Hin. apply filter_In in Hin.
      destruct Hin as [Hj Hw]. apply in_join in Hj. simpl in Hw.
      apply andb_true_iff in Hw. exists c. tauto.
    + intros [c (Hr & Hc & Ej & Eref & Hb)].
      exists (race, c). split; [reflexivity | ].
      apply order_by_In. apply filter_In. split.
      * apply in_join. auto.
      * simpl. now rewrite Eref, Hb.
  - eexists. eexists. split; [reflexivity | ].
    intros obj. rewrite in_map_iff. split.
    + intros [[[[r d] ra] c] [E Hin]].
      apply order_by_In in Hin. apply filter_In in Hin.
      destruct Hin as [Hj Hw]. simpl in Hw.
      apply andb_true_iff in Hw.
      apply in_join in Hj. destruct Hj as (Hj & Hc & Ec).
      apply in_join in Hj. destruct Hj as (Hj & Hra & Era).
      apply in_join in Hj. destruct Hj as (Hr & Hd & Ed).
      exists r, d, ra, c. simpl in *. intuition.
    + intros [r [d [ra [c H]]]].
      destruct H as (Hr & Hd & Hra & Hc & Ed & Era & Ec & Eref & Hb & ->).
      exists (r, d, ra, c). split; [reflexivity | ].
      apply order_by_In. apply filter_In. split.
      * apply in_join. split; [ | split; [exact Hc | exact Ec]].
        apply in_join. split; [ | split; [exact Hra | exact Era]].
        apply in_join. auto.
      * simpl. now rewrite Eref, Hb.
Qed.

Lemma col_between_decimal (race : row) (S E : Z) :
  safe S -> safe E ->
  col_between "year" race (decimal S) (decimal E)
  = between (col "year" race) (Integer S) (Integer E).
Proof.
  intros HS HE. unfold col_between.
  rewrite !bound_decimal; try reflexivity;
    unfold safe, int64_max in *; lia.
Qed.

(** C2 as stated fails on bounds that pass the integer check without being
    decimal numerals the data store can tell apart.  [0x7E5] is 2021 for
    [Number], so the range from 2021 to 0x7E5 is accepted as the one year
    2021; the statement receives the text, which the data store does not
    read as a number, and every year from 2021 on is selected: on the sample
    dataset the race of 2022 comes back as well.  And beyond 2^53 an end
    below the start is not noticed: 9007199254740992 and 9007199254740993
    are the same double, the range from the second to the first is not
    refused, and the statement runs. *)
Lemma a_bound_is_not_always_read_as_its_number :
  (isInt "2021" = true /\ isInt "0x7E5" = true
   /\ JS.Number "0x7E5" = JS.Number "2021"
   /\ serve Sample.db (RacesCircuitSeasons "monza" "2021" "0x7E5")
      = ok (Array
              [Sample.race 1065 2021 14 14 "Italian Grand Prix" "2021-09-12";
               Sample.race 1089 2022 16 14 "Italian Grand Prix" "2022-09-11"])
   /\ col "year"
        (Sample.race 1089 2022 16 14 "Italian Grand Prix" "2022-09-11")
      = Integer 2022
   /\ exists rows,
        serve Sample.db (ResultsDriverSeasons "hamilton" "2021" "0x7E5")
        = ok (Array rows)
        /\ map (col "year") rows = [Integer 2022; Integer 2022])
  /\ (isInt "9007199254740993" = true /\ isInt "9007199254740992" = true
      /\ JS.Number "9007199254740993" = JS.Number "9007199254740992"
      /\ submitted (handle (RacesCircuitSeasons "monza" "9007199254740993"
                              "9007199254740992"))
         = Some (sql_races_circuit_seasons,
                 ["monza"; "9007199254740993"; "9007199254740992"])
      /\ status (serve Sample.db
                   (RacesCircuitSeasons "monza" "9007199254740993"
                      "9007199254740992"))
         = 404).
Proof.
  split.
  - repeat split; try (vm_compute; reflexivity).
    eexists. split; vm_compute; reflexivity.
  - repeat split; vm_compute; reflexivity.
Qed.

(** C2, amended.  For both two-ended range operations (14 and 17), whatever
    the reference: a request whose bounds convert to numbers with the end
    below the start ([Number(end) < Number(start)]) is answered with status
    400 and submits no statement; the integer check of the two bounds comes
    first, so a bound that fails it gives the 400 of the format check
    whatever the order of the bounds; for bounds that are natural numbers
    below 2^53 written in decimal, an end below the start gives the 400 of
    the range check, and an end that is not below the start lets the
    statement through, whose rows are exactly those of the years between the
    bounds, both included ([start <= y <= end] for a year [y]). *)
Theorem range_operations (db : Database) (ref : string) :
  (forall start end_,
      JS.lt (JS.Number end_) (JS.Number start) = true ->
      exists msg,
        handle (RacesCircuitSeasons ref start end_)
        = Reply {| status := 400; json := Error msg |}
        /\ handle (ResultsDriverSeasons ref start end_)
           = Reply {| status := 400; json := Error msg |})
  /\ (forall start end_,
        isInt start = false \/ isInt end_ = false ->
        handle (RacesCircuitSeasons ref start end_)
        = Reply (badReq "start and end must be integers.")
        /\ handle (ResultsDriverSeasons ref start end_)
           = Reply (badReq "start and end must be integers."))
  /\ (forall S E,
        safe S -> safe E -> E < S ->
        handle (RacesCircuitSeasons ref (decimal S) (decimal E))
        = Reply (badReq "end year must be >= start year.")
        /\ handle (ResultsDriverSeasons ref (decimal S) (decimal E))
           = Reply (badReq "end year must be >= start year."))
  /\ (forall S E,
        safe S -> safe E -> S <= E ->
        submitted (handle (RacesCircuitSeasons ref (decimal S) (decimal E)))
        = Some (sql_races_circuit_seasons, [ref; decimal S; decimal E])
        /\ submitted
             (handle (ResultsDriverSeasons ref (decimal S) (decimal E)))
           = Some (sql_results_driver_seasons, [ref; decimal S; decimal E])
        /\ (fault db = None ->
            (exists msg rows,
                serve db (RacesCircuitSeasons ref (decimal S) (decimal E))
                = rows_or msg (inr rows)
                /\ forall race,
                    In race rows <-> circuit_race_between db ref S E race)
            /\ (exists msg rows,
                   serve db (ResultsDriverSeasons ref (decimal S) (decimal E))
                   = rows_or msg (inr rows)
                   /\ forall obj,
                       In obj rows
                       <-> driver_result_between db ref S E obj)))
  /\ (forall S E y,
        between (Integer y) (Integer S) (Integer E) = true <-> S <= y <= E).
Proof.
  split; [ | split; [ | split; [ | split]]].
  - intros start end_ Hlt. simpl.
    unfold get_races_circuit_seasons, get_results_driver_seasons.
    rewrite Hlt.
    destruct (negb (isInt start) || negb (isInt end_));
      eexists; split; reflexivity.
  - intros start end_ H. simpl.
    unfold get_races_circuit_seasons, get_results_driver_seasons.
    assert (E : negb (isInt start) || negb (isInt end_) = true)
      by (destruct H as [-> | ->]; simpl; now rewrite ?orb_true_r).
    rewrite E. auto.
  - intros S E HS HE Hlt. simpl.
    unfold get_races_circuit_seasons, get_results_driver_seasons.
    rewrite !isInt_decimal, lt_decimal by assumption.
    assert (Elt : (E <? S) = true) by lia. rewrite Elt. auto.
  - intros S E HS HE Hle.
    assert (Elt : JS.lt (JS.Number (decimal E)) (JS.Number (decimal S))
                  = false).
    { rewrite lt_decimal by assumption. lia. }
    destruct (range_rows db ref (decimal S) (decimal E)
                (isInt_decimal S HS) (isInt_decimal E HE) Elt)
      as (H14 & H17 & Hrows).
    split; [exact H14 | split; [exact H17 | ]].
    intros Hf. destruct (Hrows Hf) as [[m1 [rows1 [E1 R1]]]
                                         [m2 [rows2 [E2 R2]]]].
    split.
    + exists m1, rows1. split; [exact E1 | ].
      intros race. rewrite R1. unfold circuit_race_between.
      split; intros [c H]; exists c;
        rewrite col_between_decimal in * by assumption; exact H.
    + exists m2, rows2. split; [exact E2 | ].
      intros obj. rewrite R2. unfold driver_result_between.
      split; intros [r [d [ra [c H]]]]; exists r, d, ra, c;
        rewrite col_between_decimal in * by assumption; exact H.
  - intros S E y. apply between_integers.
Qed.

(** On the sample dataset: Monza from 2020 to 2021 gives the two races of
    those years, Monza from 2021 to 2020 is refused. *)
Lemma range_operations_witness :
  serve Sample.db (RacesCircuitSeasons "monza" "2020" "2021")
  = ok (Array [Sample.race 1038 2020 8 14 "Italian Grand Prix" "2020-09-06";
               Sample.race 1065 2021 14 14 "Italian Grand Prix" "2021-09-12"])
  /\ handle (RacesCircuitSeasons "monza" "2021" "2020")
     = Reply (badReq "end year must be >= start year.")
  /\ handle (ResultsDriverSeasons "monza" "2021" "2020")
     = Reply (badReq "end year must be >= start year.").
Proof.
  split; [reflexivity | ].
  assert (Hs : forall n, 0 <= n < 10000 -> safe n)
    by (unfold safe; intros; lia).
  exact (proj1 (proj2 (proj2 (range_operations Sample.db "monza")))
           2021 2020 (Hs 2021 ltac:(lia)) (Hs 2020 ltac:(lia))
           ltac:(lia)).
Defined.

(** ** Not-found messages *)

Lemma prefix_append (key after : string) :
  String.prefix key (key ++ after) = true.
Proof.
  induction key as [ | c key IH]; simpl.
  - now destruct after.
  - destruct (ascii_dec c c); [exact IH | congruence].
Qed.

Lemma contains_eq (key msg : string) :
  contains key msg
  = String.prefix key msg
    || match msg with
       | String _ msg' => contains key msg'
       | EmptyString => false
       end.
Proof. now destruct msg. Qed.

Lemma mentions_contains (msg key : string) :
  mentions msg key -> contains key msg = true.
Proof.
  intros [before [after ->]].
  induction before as [ | c before IH]; rewrite contains_eq.
  - simpl. now rewrite prefix_append.
  - cbn [append]. rewrite IH. apply orb_true_r.
Qed.

Lemma append_assoc (a b c : string) : ((a ++ b) ++ c = a ++ b ++ c)%string.
Proof. induction a as [ | x a IH]; simpl; [reflexivity | now rewrite IH]. Qed.

Lemma mentions_later (a msg key : string) :
  mentions msg key -> mentions (a ++ msg) key.
Proof.
  intros [before [after ->]]. exists (a ++ before)%string, after.
  now rewrite append_assoc.
Qed.

Lemma mentions_here (key after : string) : mentions (key ++ after) key.
Proof. now exists EmptyString, after. Qed.

(** Every operation but the circuit lookup names each of its parameters in
    the message of its 404. *)
Lemma not_found_names_key (r : request) (key : string) :
  In key (params r) ->
  (forall ref, r <> Circuit ref) ->
  mentions (not_found_message r) key.
Proof.
  intros Hk Hnot.
  destruct r; simpl in Hk; try contradiction;
    try (exfalso; eapply Hnot; reflexivity);
    cbv beta iota delta [not_found_message];
    repeat (destruct Hk as [<- | Hk]; [ | ]); try contradiction;
    repeat first [ apply mentions_here | apply mentions_later ].
Qed.

Lemma not_found_response (db : Database) (r : request) (msg : string) :
  serve db r = {| status := 404; json := Error msg |} ->
  msg = not_found_message r.
Proof.
  unfold serve.
  destruct (handle_cases r) as [[m H] | [H | H]]; rewrite H; simpl.
  - discriminate.
  - destruct (all db _ _) as [e | [ | x rows]]; simpl; try discriminate.
    intros E. now inversion E.
  - destruct (get db _ _) as [e | [x | ]]; simpl; try discriminate.
    intros E. now inversion E.
Qed.

(** C4, at the request that fails it.  The circuit lookup answers an unknown
    reference with the default message of [notFound], which does not name
    the reference, while the constructor and driver lookups name theirs. *)
Theorem circuit_not_found_omits_the_reference :
  serve Sample.db (Circuit "calgary")
  = {| status := 404; json := Error "No data found." |}
  /\ ~ mentions "No data found." "calgary"
  /\ serve Sample.db (Constructor "calgary")
     = {| status := 404;
          json := Error "No constructor found with ref 'calgary'." |}
  /\ serve Sample.db (Driver "calgary")
     = {| status := 404;
          json := Error "No driver found with ref 'calgary'." |}.
Proof.
  split; [reflexivity | split; [ | split; reflexivity]].
  intros H. apply mentions_contains in H. discriminate.
Qed.

(** ** Routing *)

Lemma match_route_nonempty (pattern : list segment) (path ps : list string) :
  match_route pattern path = Some ps -> Forall (fun x => x <> "") ps.
Proof.
  revert path ps. induction pattern as [ | seg pattern IH]; intros path ps.
  - destruct path; simpl; intros H; inversion H. constructor.
  - destruct seg as [s | ], path as [ | x path]; simpl; try discriminate.
    + destruct (lower x =? s)%string; [apply IH | discriminate].
    + destruct (x =? "")%string eqn:E; [discriminate | ].
      destruct (match_route pattern path) as [ps' | ] eqn:E';
        simpl; intros H; inversion H; subst.
      constructor; [now apply String.eqb_neq | now apply (IH path)].
Qed.

(** The router supplies every placeholder, and never an empty string. *)
Lemma routed_params_nonempty (path : list string) (r : request) :
  route path = Some r -> Forall (fun x => x <> "") (params r).
Proof.
  unfold route. generalize (drop_trailing_slash path). clear path.
  intros path. unfold routes. cbn [first_match].
  repeat match goal with
         | |- context [match_route ?pat path] =>
             let E := fresh "E" in
             destruct (match_route pat path) as [ps | ] eqn:E;
             [ apply match_route_nonempty in E;
               repeat (destruct ps as [ | ? ps]; try discriminate);
               intros H; inversion H; subst; exact E
             | clear E ]
         end.
  discriminate.
Qed.

(** ** Surname search *)
















(** * Further properties of the handlers

    The rest of [server.js]: the handlers and the paths of a handler that
    the properties above do not reach. *)

(** ** Vocabulary *)

(** A second sample dataset: one race with its qualifying session and the
    standings after it. *)
Module Weekend.

Definition qualifying_row (id raceId driverId constructorId position : Z)
  (q1 : string) : row :=
  [("qualifyId", Integer id); ("raceId", Integer raceId);
   ("driverId", Integer driverId); ("constructorId", Integer constructorId);
   ("position", Integer position); ("q1", Text q1); ("q2", Null);
   ("q3", Null)].

Definition driver_standing (raceId driverId position wins : Z) : row :=
  [("driverStandingsId", Integer (raceId + driverId));
   ("raceId", Integer raceId); ("driverId", Integer driverId);
   ("points", Integer (100 - position)); ("position", Integer position);
   ("wins", Integer wins)].

Definition constructor_standing (raceId constructorId position wins : Z)
  : row :=
  [("constructorStandingsId", Integer (raceId + constructorId));
   ("raceId", Integer raceId); ("constructorId", Integer constructorId);
   ("points", Integer (200 - position)); ("position", Integer position);
   ("wins", Integer wins)].

Definition db : Database := {|
  circuits := circuits Sample.db;
  constructors := constructors Sample.db;
  drivers := drivers Sample.db;
  races := races Sample.db;
  results := results Sample.db;
  qualifying :=
    [ qualifying_row 9302 1077 1 131 14 "1:19.957";
      qualifying_row 9290 1077 830 9 1 "1:18.793" ];
  driverStandings :=
    [ driver_standing 1077 1 7 0; driver_standing 1077 830 2 2 ];
  constructorStandings :=
    [ constructor_standing 1077 131 3 0; constructor_standing 1077 9 2 2 ];
  fault := None
|}.

End Weekend.

(** The path that a client writes for a request, segment by segment. *)
Definition path_of (r : request) : list string :=
  match r with
  | Circuits => ["api"; "circuits"]
  | Circuit circuitRef => ["api"; "circuits"; circuitRef]
  | CircuitsSeason year => ["api"; "circuits"; "season"; year]
  | Constructors => ["api"; "constructors"]
  | Constructor ref => ["api"; "constructors"; ref]
  | Drivers => ["api"; "drivers"]
  | Driver ref => ["api"; "drivers"; ref]
  | DriversSearch substring => ["api"; "drivers"; "search"; substring]
  | DriversRace raceId => ["api"; "drivers"; "race"; raceId]
  | Race raceId => ["api"; "races"; raceId]
  | RacesSeason year => ["api"; "races"; "season"; year]
  | RaceSeasonRound year round => ["api"; "races"; "season"; year; round]
  | RacesCircuit ref => ["api"; "races"; "circuits"; ref]
  | RacesCircuitSeasons ref start end_ =>
      ["api"; "races"; "circuits"; ref; "season"; start; end_]
  | Results raceId => ["api"; "results"; raceId]
  | ResultsDriver ref => ["api"; "results"; "driver"; ref]
  | ResultsDriverSeasons ref start end_ =>
      ["api"; "results"; "drivers"; ref; "seasons"; start; end_]
  | Qualifying raceId => ["api"; "qualifying"; raceId]
  | StandingsDrivers raceId => ["api"; "standings"; "drivers"; raceId]
  | StandingsConstructors raceId =>
      ["api"; "standings"; "constructors"; raceId]
  end.

(** The rows are ordered by year, then round. *)
Definition by_year_then_round (rows : list row) : Prop :=
  Sorted (fun a b => leb2 (col "year" a) (col "round" a)
                          (col "year" b) (col "round" b) = true) rows.

(** The first row of [table] whose column [name] is the text [ref]. *)
Definition first_with (name ref : string) (table : list row) : option row :=
  find (fun r => match col name r with
                 | Text s => (s =? ref)%string
                 | _ => false
                 end) table.

(** The columns that statements 15 and 18 put in place of the foreign keys
    of a row: those of its race, of its driver and of its constructor. *)
Definition inlined (ra d c : row) : row :=
  [("race_name", col "name" ra); ("race_round", col "round" ra);
   ("race_year", col "year" ra); ("race_date", col "date" ra);
   ("driver_ref", col "driverRef" d); ("driver_code", col "code" d);
   ("driver_forename", col "forename" d);
   ("driver_surname", col "surname" d);
   ("constructor_name", col "name" c);
   ("constructor_ref", col "constructorRef" c);
   ("constructor_nationality", col "nationality" c)].

(** ** Helper lemmas *)

Lemma string_compare_refl (s : string) : String.compare s s = Eq.
Proof.
  pose proof (String.compare_antisym s s) as H.
  destruct (String.compare s s); simpl in H; congruence.
Qed.

(** Equality with a bound string on a TEXT column: the column holds
    exactly that text. *)
Lemma eq_Text (v : value) (p : string) :
  eq v (Text p) = match v with Text s => (s =? p)%string | _ => false end.
Proof.
  destruct v as [ | i | d | s | b]; try reflexivity.
  unfold eq. simpl. destruct (String.eqb_spec s p) as [-> | Hne].
  - now rewrite string_compare_refl.
  - destruct (String.compare s p) eqn:E; try reflexivity.
    apply String.compare_eq_iff in E. contradiction.
Qed.

Lemma eq_Text_iff (v : value) (p : string) :
  eq v (Text p) = true <-> v = Text p.
Proof.
  rewrite eq_Text. destruct v; split; try discriminate.
  - intros H. apply String.eqb_eq in H. now subst.
  - intros H. inversion H. apply String.eqb_refl.
Qed.

(** Membership in the rows of a statement: a row of the source that the
    WHERE clause keeps, through the SELECT list. *)
Lemma in_query {T : Type} (proj : T -> row) (le : T -> T -> bool)
  (where_ : T -> bool) (src : list T) (obj : row) :
  In obj (map proj (order_by le (filter where_ src)))
  <-> exists t, In t src /\ where_ t = true /\ obj = proj t.
Proof.
  rewrite in_map_iff. split.
  - intros [t [E H]]. apply order_by_In in H. apply filter_In in H.
    exists t. intuition.
  - intros [t (H1 & H2 & ->)]. exists t. split; [reflexivity | ].
    apply order_by_In. apply filter_In. auto.
Qed.

Lemma double_compare_refl (d : Double.double) : Double.compare d d = Eq.
Proof.
  destruct d as [[ | ] | q]; simpl; try reflexivity.
  apply Qeq_alt. reflexivity.
Qed.

Lemma hd_error_filter {A : Type} (P : A -> bool) (l : list A) :
  hd_error (filter P l) = find P l.
Proof.
  induction l as [ | a l IH]; simpl; [reflexivity | ].
  destruct (P a); [reflexivity | exact IH].
Qed.

Lemma find_ext {A : Type} (P Q : A -> bool) (l : list A) :
  (forall x, P x = Q x) -> find P l = find Q l.
Proof.
  intros H. induction l as [ | a l IH]; simpl; [reflexivity | ].
  rewrite H, IH. reflexivity.
Qed.

(** ** Failures of the data store and status codes *)

(** X1. Every handler that submits a statement answers an error of the
    data store with status 500 and the message of the error, unchanged: on
    its callback, and so for a dataset whose handle reports a failure.  A
    handler that replies without a statement replies 400. *)
Theorem store_failure_is_reported (r : request) (message : string) :
  match handle r with
  | Reply resp => status resp = 400
  | All _ _ callback =>
      callback (inl message) = {| status := 500; json := Error message |}
  | Get _ _ callback =>
      callback (inl message) = {| status := 500; json := Error message |}
  end
  /\ forall db,
      fault db = Some message ->
      serve db r = {| status := 500; json := Error message |}
      \/ exists msg, serve db r = {| status := 400; json := Error msg |}.
Proof.
  unfold serve.
  destruct (handle_cases r) as [[msg H] | [H | H]]; rewrite H; simpl.
  - split; [reflexivity | ]. intros db _. right. now exists msg.
  - split; [reflexivity | ]. intros db Hf. left.
    unfold all. now rewrite Hf.
  - split; [reflexivity | ]. intros db Hf. left.
    unfold get, all. now rewrite Hf.
Qed.

(** X2. Whatever the dataset and the request, the status is 200, 400, 404
    or 500; it is 400 exactly when the handler submits no statement; and a
    404 carries the not-found message of the operation. *)
Theorem status_codes (db : Database) (r : request) :
  In (status (serve db r)) [200; 400; 404; 500]
  /\ (status (serve db r) = 400 <-> submitted (handle r) = None)
  /\ (status (serve db r) = 404 ->
      json (serve db r) = Error (not_found_message r)).
Proof.
  unfold serve.
  destruct (handle_cases r) as [[msg H] | [H | H]]; rewrite H; simpl.
  - repeat split; auto; discriminate.
  - destruct (all db (statement_of r) (params r)) as [e | [ | x rows]];
      simpl; repeat split; auto; try discriminate; tauto.
  - destruct (get db (statement_of r) (params r)) as [e | [x | ]];
      simpl; repeat split; auto; try discriminate; tauto.
Qed.

(** X3. The message of a 404 names every parameter of the request, for
    every operation but the circuit lookup. *)
Theorem not_found_message_names_the_parameters (db : Database) (r : request)
  (msg key : string) :
  serve db r = {| status := 404; json := Error msg |} ->
  In key (params r) ->
  (forall ref, r <> Circuit ref) ->
  mentions msg key.
Proof.
  intros H Hk Hnot. apply not_found_response in H. subst msg.
  now apply not_found_names_key.
Qed.

Lemma not_found_message_names_the_parameters_witness :
  mentions "No races for 'monza' between 1950 and 1951." "1951".
Proof.
  apply (not_found_message_names_the_parameters Sample.db
           (RacesCircuitSeasons "monza" "1950" "1951")).
  - reflexivity.
  - simpl. tauto.
  - discriminate.
Defined.

(** ** Validation *)

(** X4. [isInt] accepts every natural number below 2^53 written in
    decimal, [Number] gives back the number written, and the comparison of
    the range check on two such numerals is the comparison of the
    numbers. *)
Theorem decimal_numerals_are_accepted (a b : Z) :
  safe a -> safe b ->
  isInt (decimal a) = true
  /\ (exists q, JS.Number (decimal a) = JS.Num (Double.DFin q)
                /\ q == inject_Z a)
  /\ JS.lt (JS.Number (decimal b)) (JS.Number (decimal a)) = (b <? a).
Proof.
  intros Ha Hb. split; [now apply isInt_decimal | split].
  - now apply Number_decimal.
  - now apply lt_decimal.
Qed.

Lemma decimal_numerals_are_accepted_witness :
  isInt "2015" = true
  /\ (exists q, JS.Number "2015" = JS.Num (Double.DFin q)
                /\ q == inject_Z 2015)
  /\ JS.lt (JS.Number "2022") (JS.Number "2015") = false.
Proof.
  apply (decimal_numerals_are_accepted 2015 2022); unfold safe; lia.
Defined.

(** X5. A range whose two bounds are the same accepted string is never
    refused: both range operations submit their statement with it. *)
Theorem single_year_range_is_accepted (ref year : string) :
  isInt year = true ->
  submitted (handle (RacesCircuitSeasons ref year year))
  = Some (sql_races_circuit_seasons, [ref; year; year])
  /\ submitted (handle (ResultsDriverSeasons ref year year))
     = Some (sql_results_driver_seasons, [ref; year; year]).
Proof.
  intros H. simpl.
  unfold get_races_circuit_seasons, get_results_driver_seasons.
  rewrite H. simpl.
  assert (E : JS.lt (JS.Number year) (JS.Number year) = false).
  { unfold JS.lt. destruct (JS.Number year) as [ | d]; [reflexivity | ].
    now rewrite double_compare_refl. }
  rewrite E. split; reflexivity.
Qed.

Lemma single_year_range_is_accepted_witness :
  submitted (handle (RacesCircuitSeasons "monza" "2020" "2020"))
  = Some (sql_races_circuit_seasons, ["monza"; "2020"; "2020"])
  /\ submitted (handle (ResultsDriverSeasons "monza" "2020" "2020"))
     = Some (sql_results_driver_seasons, ["monza"; "2020"; "2020"]).
Proof.
  exact (single_year_range_is_accepted "monza" "2020" eq_refl).
Defined.

(** ** Lookups by reference *)

Lemma first_with_some (name ref : string) (table : list row) (r : row) :
  first_with name ref table = Some r ->
  In r table /\ col name r = Text ref.
Proof.
  unfold first_with. intros H. apply find_some in H.
  destruct H as [Hin H]. split; [exact Hin | ].
  destruct (col name r); try discriminate.
  apply String.eqb_eq in H. now subst.
Qed.

Lemma first_with_none (name ref : string) (table : list row) :
  first_with name ref table = None ->
  forall r, In r table -> col name r <> Text ref.
Proof.
  unfold first_with. intros H r Hin E.
  pose proof (find_none _ _ H r Hin) as Hr. simpl in Hr.
  rewrite E, String.eqb_refl in Hr. discriminate.
Qed.

Lemma lookup_rows (name ref : string) (table : list row) :
  column_affinity name = TEXT ->
  hd_error (filter (fun r => col_eq name r ref) table)
  = first_with name ref table.
Proof.
  intros Ha. rewrite hd_error_filter. apply find_ext.
  intros r. unfold col_eq, bound. rewrite Ha. apply eq_Text.
Qed.

(** X6. With the data store in working order, the three lookups by
    reference (operations 2, 5 and 7) answer with the first row of their
    table whose reference is exactly the text supplied, byte for byte (so
    the case of the letters counts), and with a 404 when no row has it. *)
Theorem lookup_by_reference (db : Database) (ref : string) :
  fault db = None ->
  (serve db (Circuit ref)
   = row_or "No data found."
       (inr (first_with "circuitRef" ref (circuits db)))
   /\ serve db (Constructor ref)
      = row_or ("No constructor found with ref '" ++ ref ++ "'.")
          (inr (first_with "constructorRef" ref (constructors db)))
   /\ serve db (Driver ref)
      = row_or ("No driver found with ref '" ++ ref ++ "'.")
          (inr (first_with "driverRef" ref (drivers db))))
  /\ (forall row,
        serve db (Driver ref) = {| status := 200; json := Object row |} ->
        In row (drivers db) /\ col "driverRef" row = Text ref)
  /\ ((forall row, In row (drivers db) -> col "driverRef" row <> Text ref) ->
      status (serve db (Driver ref)) = 404).
Proof.
  intros Hf.
  assert (H : serve db (Circuit ref)
   = row_or "No data found."
       (inr (first_with "circuitRef" ref (circuits db)))
   /\ serve db (Constructor ref)
      = row_or ("No constructor found with ref '" ++ ref ++ "'.")
          (inr (first_with "constructorRef" ref (constructors db)))
   /\ serve db (Driver ref)
      = row_or ("No driver found with ref '" ++ ref ++ "'.")
          (inr (first_with "driverRef" ref (drivers db)))).
  { unfold serve. simpl. unfold get, all. rewrite Hf. simpl.
    rewrite !lookup_rows by reflexivity. repeat split. }
  split; [exact H | ]. destruct H as (_ & _ & H). rewrite H. split.
  - intros row E.
    destruct (first_with "driverRef" ref (drivers db)) as [r | ] eqn:F;
      simpl in E; [ | discriminate].
    inversion E; subst. now apply first_with_some in F.
  - intros Hnone.
    destruct (first_with "driverRef" ref (drivers db)) as [r | ] eqn:F;
      [ | reflexivity].
    apply first_with_some in F. destruct F as [Hin E].
    exfalso. exact (Hnone r Hin E).
Qed.

Lemma lookup_by_reference_witness :
  serve Sample.db (Driver "hamilton")
  = {| status := 200;
       json := Object (Sample.driver 1 "hamilton" "HAM" "Lewis" "Hamilton") |}
  /\ status (serve Sample.db (Driver "Hamilton")) = 404.
Proof.
  split.
  - exact (proj2 (proj2 (proj1
             (lookup_by_reference Sample.db "hamilton" eq_refl)))).
  - apply (proj2 (proj2 (lookup_by_reference Sample.db "Hamilton" eq_refl))).
    intros row Hin. simpl in Hin.
    repeat (destruct Hin as [<- | Hin]; [discriminate | ]).
    contradiction.
Defined.

(** ** Collections *)





(** X8. With the data store in working order, operation 13 returns the
    races held at the circuit whose reference is exactly the text supplied,
    ordered by year, then round. *)
Theorem races_of_a_circuit (db : Database) (ref : string) :
  fault db = None ->
  exists rows,
    serve db (RacesCircuit ref)
    = rows_or ("No races for circuit '" ++ ref ++ "'.") (inr rows)
    /\ by_year_then_round rows
    /\ forall race,
        In race rows
        <-> exists c,
            In race (races db) /\ In c (circuits db)
            /\ eq (col "circuitId" c) (col "circuitId" race) = true
            /\ col "circuitRef" c = Text ref.
Proof.
  intros Hf. unfold serve. simpl. unfold all. rewrite Hf. simpl.
  eexists. split; [reflexivity | split].
  - unfold by_year_then_round.
    apply Sorted_map_rel
      with (R := fun x y : row * row =>
                   by_keys (fun rc => col "year" (fst rc))
                           (fun rc => col "round" (fst rc)) x y = true).
    + intros x y H. exact H.
    + apply order_by_sorted. apply by_keys_total.
  - intros race. rewrite in_query. split.
    + intros [[r c] (Hj & Hw & E)]. simpl in E. subst race.
      apply in_join in Hj. simpl in Hw.
      unfold col_eq, bound in Hw. simpl in Hw. apply eq_Text_iff in Hw.
      exists c. tauto.
    + intros [c (Hr & Hc & Ej & Eref)]. exists (race, c).
      split; [apply in_join; auto | split; [ | reflexivity]].
      simpl. unfold col_eq, bound. simpl. now apply eq_Text_iff.
Qed.

Lemma races_of_a_circuit_witness :
  exists rows,
    serve Sample.db (RacesCircuit "monza")
    = rows_or "No races for circuit 'monza'." (inr rows)
    /\ by_year_then_round rows
    /\ forall race,
        In race rows
        <-> exists c,
            In race (races Sample.db) /\ In c (circuits Sample.db)
            /\ eq (col "circuitId" c) (col "circuitId" race) = true
            /\ col "circuitRef" c = Text "monza".
Proof. exact (races_of_a_circuit Sample.db "monza" eq_refl). Defined.

(** X9. With the data store in working order, operation 16 returns the
    results of the driver whose reference is exactly the text supplied, each
    with the columns of statement 16 (the result's own, the race's raceId,
    year, round, name and date, the constructor's name and reference; no
    column of the driver), ordered by year, then round. *)
Theorem results_of_a_driver (db : Database) (ref : string) :
  fault db = None ->
  exists rows,
    serve db (ResultsDriver ref)
    = rows_or ("No results for driver '" ++ ref ++ "'.") (inr rows)
    /\ by_year_then_round rows
    /\ (forall obj,
          In obj rows
          <-> exists r d ra c,
              In r (results db) /\ In d (drivers db) /\ In ra (races db)
              /\ In c (constructors db)
              /\ eq (col "driverId" d) (col "driverId" r) = true
              /\ eq (col "raceId" ra) (col "raceId" r) = true
              /\ eq (col "constructorId" c) (col "constructorId" r) = true
              /\ col "driverRef" d = Text ref
              /\ obj = driver_result (r, d, ra, c))
    /\ forall obj,
        In obj rows ->
        columns obj
        = ["resultId"; "position"; "points"; "grid"; "laps"; "statusId";
           "raceId"; "year"; "round"; "name"; "date"; "constructor_name";
           "constructor_ref"].
Proof.
  intros Hf. unfold serve. simpl. unfold all. rewrite Hf. simpl.
  eexists. split; [reflexivity | ].
  assert (Hmem : forall obj,
    In obj (map driver_result
              (order_by (by_keys (fun t => col "year" (snd (fst t)))
                                 (fun t => col "round" (snd (fst t))))
                 (filter (fun t : row * row * row * row =>
                            col_eq "driverRef" (snd (fst (fst t))) ref)
                    (join (join (join (results db) (drivers db)
                                   (fun r d => eq (col "driverId" d)
                                                  (col "driverId" r)))
                             (races db)
                             (fun t ra => eq (col "raceId" ra)
                                             (col "raceId" (fst t))))
                       (constructors db)
                       (fun t c => eq (col "constructorId" c)
                                      (col "constructorId"
                                         (fst (fst t))))))))
    <-> exists r d ra c,
        In r (results db) /\ In d (drivers db) /\ In ra (races db)
        /\ In c (constructors db)
        /\ eq (col "driverId" d) (col "driverId" r) = true
        /\ eq (col "raceId" ra) (col "raceId" r) = true
        /\ eq (col "constructorId" c) (col "constructorId" r) = true
        /\ col "driverRef" d = Text ref
        /\ obj = driver_result (r, d, ra, c)).
  { intros obj. rewrite in_query. split.
    - intros [[[[r d] ra] c] (Hj & Hw & E)]. simpl in Hw.
      unfold col_eq, bound in Hw. simpl in Hw. apply eq_Text_iff in Hw.
      apply in_join in Hj. destruct Hj as (Hj & Hc & Ec).
      apply in_join in Hj. destruct Hj as (Hj & Hra & Era).
      apply in_join in Hj. destruct Hj as (Hr & Hd & Ed).
      exists r, d, ra, c. simpl in *. intuition.
    - intros [r [d [ra [c H]]]].
      destruct H as (Hr & Hd & Hra & Hc & Ed & Era & Ec & Eref & ->).
      exists (r, d, ra, c). split; [ | split; [ | reflexivity]].
      + apply in_join. split; [ | split; [exact Hc | exact Ec]].
        apply in_join. split; [ | split; [exact Hra | exact Era]].
        apply in_join. auto.
      + simpl. unfold col_eq, bound. simpl. now apply eq_Text_iff. }
  split; [ | split; [exact Hmem | ]].
  - unfold by_year_then_round.
    apply Sorted_map_rel
      with (R := fun x y : row * row * row * row =>
                   by_keys (fun t => col "year" (snd (fst t)))
                           (fun t => col "round" (snd (fst t))) x y = true).
    + intros [[[r1 d1] ra1] c1] [[[r2 d2] ra2] c2] H. exact H.
    + apply order_by_sorted. apply by_keys_total.
  - intros obj H. apply Hmem in H.
    destruct H as [r [d [ra [c H]]]].
    destruct H as (_ & _ & _ & _ & _ & _ & _ & _ & ->). reflexivity.
Qed.

Lemma results_of_a_driver_witness :
  exists rows,
    serve Sample.db (ResultsDriver "hamilton")
    = rows_or "No results for driver 'hamilton'." (inr rows)
    /\ by_year_then_round rows
    /\ (forall obj,
          In obj rows
          <-> exists r d ra c,
              In r (results Sample.db) /\ In d (drivers Sample.db)
              /\ In ra (races Sample.db) /\ In c (constructors Sample.db)
              /\ eq (col "driverId" d) (col "driverId" r) = true
              /\ eq (col "raceId" ra) (col "raceId" r) = true
              /\ eq (col "constructorId" c) (col "constructorId" r) = true
              /\ col "driverRef" d = Text "hamilton"
              /\ obj = driver_result (r, d, ra, c))
    /\ forall obj,
        In obj rows ->
        columns obj
        = ["resultId"; "position"; "points"; "grid"; "laps"; "statusId";
           "raceId"; "year"; "round"; "name"; "date"; "constructor_name";
           "constructor_ref"].
Proof. exact (results_of_a_driver Sample.db "hamilton" eq_refl). Defined.

(** ** Operations on a race id *)

(** The numeral of a race id, as a parameter: it passes validation and
    selects the rows whose raceId equals the id. *)
Lemma race_id_parameter (raceId : Z) :
  safe raceId ->
  isInt (decimal raceId) = true
  /\ forall r, col_eq "raceId" r (decimal raceId)
               = eq (col "raceId" r) (Integer raceId).
Proof.
  intros H. split; [now apply isInt_decimal | ].
  intros r. now apply eq_bound_decimal.
Qed.

(** X10. With the data store in working order, operation 19 returns the
    driver standings as of the race, each with the position, points and wins
    of the standing and the reference, code, forename and surname of its
    driver (and no driver id), in the order of the positions. *)
Theorem driver_standings_of_a_race (db : Database) (raceId : Z) :
  fault db = None -> safe raceId ->
  exists rows,
    serve db (StandingsDrivers (decimal raceId))
    = rows_or ("No driver standings for raceId " ++ decimal raceId ++ ".")
        (inr rows)
    /\ nondecreasing "position" rows
    /\ forall obj,
        In obj rows
        <-> exists ds d,
            In ds (driverStandings db) /\ In d (drivers db)
            /\ eq (col "driverId" d) (col "driverId" ds) = true
            /\ eq (col "raceId" ds) (Integer raceId) = true
            /\ obj = [("position", col "position" ds);
                      ("points", col "points" ds); ("wins", col "wins" ds);
                      ("driver_ref", col "driverRef" d);
                      ("driver_code", col "code" d);
                      ("driver_forename", col "forename" d);
                      ("driver_surname", col "surname" d)].
Proof.
  intros Hf Hs. destruct (race_id_parameter raceId Hs) as [Hi Hb].
  set (p := decimal raceId) in *. clearbody p.
  unfold serve. simpl. unfold get_standings_drivers. rewrite Hi. simpl.
  unfold all. rewrite Hf. simpl.
  eexists. split; [reflexivity | split].
  - unfold nondecreasing.
    apply Sorted_map_rel
      with (R := fun x y : row * row =>
                   by_key (fun t => col "position" (fst t)) x y = true).
    + intros [ds1 d1] [ds2 d2] H. exact H.
    + apply order_by_sorted. apply by_key_total.
  - intros obj. rewrite in_query. split.
    + intros [[ds d] (Hj & Hw & E)]. simpl in Hw. rewrite Hb in Hw.
      apply in_join in Hj. exists ds, d. simpl in *. intuition.
    + intros [ds [d (Hds & Hd & Ej & Ew & ->)]]. exists (ds, d).
      split; [apply in_join; auto | split; [ | reflexivity]].
      simpl. now rewrite Hb.
Qed.

Lemma driver_standings_of_a_race_witness :
  exists rows,
    serve Weekend.db (StandingsDrivers "1077")
    = rows_or "No driver standings for raceId 1077." (inr rows)
    /\ nondecreasing "position" rows
    /\ forall obj,
        In obj rows
        <-> exists ds d,
            In ds (driverStandings Weekend.db) /\ In d (drivers Weekend.db)
            /\ eq (col "driverId" d) (col "driverId" ds) = true
            /\ eq (col "raceId" ds) (Integer 1077) = true
            /\ obj = [("position", col "position" ds);
                      ("points", col "points" ds); ("wins", col "wins" ds);
                      ("driver_ref", col "driverRef" d);
                      ("driver_code", col "code" d);
                      ("driver_forename", col "forename" d);
                      ("driver_surname", col "surname" d)].
Proof.
  apply (driver_standings_of_a_race Weekend.db 1077 eq_refl).
  unfold safe. lia.
Defined.

(** X11. With the data store in working order, operation 20 returns the
    constructor standings as of the race, each with the position, points
    and wins of the standing and the name, reference and nationality of its
    constructor, in the order of the positions. *)
Theorem constructor_standings_of_a_race (db : Database) (raceId : Z) :
  fault db = None -> safe raceId ->
  exists rows,
    serve db (StandingsConstructors (decimal raceId))
    = rows_or ("No constructor standings for raceId " ++ decimal raceId
               ++ ".") (inr rows)
    /\ nondecreasing "position" rows
    /\ forall obj,
        In obj rows
        <-> exists cs c,
            In cs (constructorStandings db) /\ In c (constructors db)
            /\ eq (col "constructorId" c) (col "constructorId" cs) = true
            /\ eq (col "raceId" cs) (Integer raceId) = true
            /\ obj = [("position", col "position" cs);
                      ("points", col "points" cs); ("wins", col "wins" cs);
                      ("constructor_name", col "name" c);
                      ("constructor_ref", col "constructorRef" c);
                      ("constructor_nationality", col "nationality" c)].
Proof.
  intros Hf Hs. destruct (race_id_parameter raceId Hs) as [Hi Hb].
  set (p := decimal raceId) in *. clearbody p.
  unfold serve. simpl. unfold get_standings_constructors. rewrite Hi. simpl.
  unfold all. rewrite Hf. simpl.
  eexists. split; [reflexivity | split].
  - unfold nondecreasing.
    apply Sorted_map_rel
      with (R := fun x y : row * row =>
                   by_key (fun t => col "position" (fst t)) x y = true).
    + intros [cs1 c1] [cs2 c2] H. exact H.
    + apply order_by_sorted. apply by_key_total.
  - intros obj. rewrite in_query. split.
    + intros [[cs c] (Hj & Hw & E)]. simpl in Hw. rewrite Hb in Hw.
      apply in_join in Hj. exists cs, c. simpl in *. intuition.
    + intros [cs [c (Hcs & Hc & Ej & Ew & ->)]]. exists (cs, c).
      split; [apply in_join; auto | split; [ | reflexivity]].
      simpl. now rewrite Hb.
Qed.

Lemma constructor_standings_of_a_race_witness :
  exists rows,
    serve Weekend.db (StandingsConstructors "1077")
    = rows_or "No constructor standings for raceId 1077." (inr rows)
    /\ nondecreasing "position" rows
    /\ forall obj,
        In obj rows
        <-> exists cs c,
            In cs (constructorStandings Weekend.db)
            /\ In c (constructors Weekend.db)
            /\ eq (col "constructorId" c) (col "constructorId" cs) = true
            /\ eq (col "raceId" cs) (Integer 1077) = true
            /\ obj = [("position", col "position" cs);
                      ("points", col "points" cs); ("wins", col "wins" cs);
                      ("constructor_name", col "name" c);
                      ("constructor_ref", col "constructorRef" c);
                      ("constructor_nationality", col "nationality" c)].
Proof.
  apply (constructor_standings_of_a_race Weekend.db 1077 eq_refl).
  unfold safe. lia.
Defined.



(** X13. With the data store in working order, every object that operation
    15 returns is a result of the race with the race, the driver and the
    constructor that it references: the result's own resultId, position,
    positionText, points, grid, laps and statusId, then the inlined columns
    of the three; none of the three foreign keys is a column of the object,
    and every such result is returned. *)
Theorem results_of_a_race (db : Database) (raceId : Z) :
  fault db = None -> safe raceId ->
  exists rows,
    serve db (Results (decimal raceId))
    = rows_or ("No results for raceId " ++ decimal raceId ++ ".") (inr rows)
    /\ (forall obj,
          In obj rows
          <-> exists r ra d c,
              In r (results db) /\ In ra (races db) /\ In d (drivers db)
              /\ In c (constructors db)
              /\ eq (col "raceId" ra) (col "raceId" r) = true
              /\ eq (col "driverId" d) (col "driverId" r) = true
              /\ eq (col "constructorId" c) (col "constructorId" r) = true
              /\ eq (col "raceId" r) (Integer raceId) = true
              /\ obj = ([("resultId", col "resultId" r);
                         ("position", col "position" r);
                         ("positionText", col "positionText" r);
                         ("points", col "points" r); ("grid", col "grid" r);
                         ("laps", col "laps" r);
                         ("statusId", col "statusId" r)]
                        ++ inlined ra d c)%list)
    /\ forall obj,
        In obj rows ->
        ~ In "raceId" (columns obj) /\ ~ In "driverId" (columns obj)
        /\ ~ In "constructorId" (columns obj).
Proof.
  intros Hf Hs. destruct (race_id_parameter raceId Hs) as [Hi Hb].
  set (p := decimal raceId) in *. clearbody p.
  unfold serve. simpl. unfold get_results. rewrite Hi. simpl.
  unfold all. rewrite Hf. simpl.
  eexists. split; [reflexivity | ].
  match goal with
  | |- ?A /\ _ => assert (Hmem : A)
  end.
  { intros obj. rewrite in_query. split.
    - intros [[[[r ra] d] c] (Hj & Hw & E)]. simpl in Hw. rewrite Hb in Hw.
      apply in_join in Hj. destruct Hj as (Hj & Hc & Ec).
      apply in_join in Hj. destruct Hj as (Hj & Hd & Ed).
      apply in_join in Hj. destruct Hj as (Hr & Hra & Era).
      exists r, ra, d, c. simpl in *. intuition.
    - intros [r [ra [d [c H]]]].
      destruct H as (Hr & Hra & Hd & Hc & Era & Ed & Ec & Ew & ->).
      exists (r, ra, d, c). split; [ | split; [ | reflexivity]].
      + apply in_join. split; [ | split; [exact Hc | exact Ec]].
        apply in_join. split; [ | split; [exact Hd | exact Ed]].
        apply in_join. auto.
      + simpl. now rewrite Hb. }
  split; [exact Hmem | ].
  intros obj H. apply Hmem in H. destruct H as [r [ra [d [c H]]]].
  destruct H as (_ & _ & _ & _ & _ & _ & _ & _ & ->).
  simpl. intuition discriminate.
Qed.

Lemma results_of_a_race_witness :
  exists rows,
    serve Sample.db (Results "1077")
    = rows_or "No results for raceId 1077." (inr rows)
    /\ (forall obj,
          In obj rows
          <-> exists r ra d c,
              In r (results Sample.db) /\ In ra (races Sample.db)
              /\ In d (drivers Sample.db) /\ In c (constructors Sample.db)
              /\ eq (col "raceId" ra) (col "raceId" r) = true
              /\ eq (col "driverId" d) (col "driverId" r) = true
              /\ eq (col "constructorId" c) (col "constructorId" r) = true
              /\ eq (col "raceId" r) (Integer 1077) = true
              /\ obj = ([("resultId", col "resultId" r);
                         ("position", col "position" r);
                         ("positionText", col "positionText" r);
                         ("points", col "points" r); ("grid", col "grid" r);
                         ("laps", col "laps" r);
                         ("statusId", col "statusId" r)]
                        ++ inlined ra d c)%list)
    /\ forall obj,
        In obj rows ->
        ~ In "raceId" (columns obj) /\ ~ In "driverId" (columns obj)
        /\ ~ In "constructorId" (columns obj).
Proof.
  apply (results_of_a_race Sample.db 1077 eq_refl). unfold safe. lia.
Defined.

(** X14. With the data store in working order, operation 18 returns the
    qualifying rows of the race in the order of the qualifying positions,
    each with its qualifyId, position, q1, q2 and q3 and the inlined columns
    of its race, driver and constructor. *)
Theorem qualifying_of_a_race (db : Database) (raceId : Z) :
  fault db = None -> safe raceId ->
  exists rows,
    serve db (Qualifying (decimal raceId))
    = rows_or ("No qualifying for raceId " ++ decimal raceId ++ ".")
        (inr rows)
    /\ nondecreasing "position" rows
    /\ forall obj,
        In obj rows
        <-> exists q ra d c,
            In q (qualifying db) /\ In ra (races db) /\ In d (drivers db)
            /\ In c (constructors db)
            /\ eq (col "raceId" ra) (col "raceId" q) = true
            /\ eq (col "driverId" d) (col "driverId" q) = true
            /\ eq (col "constructorId" c) (col "constructorId" q) = true
            /\ eq (col "raceId" q) (Integer raceId) = true
            /\ obj = ([("qualifyId", col "qualifyId" q);
                       ("position", col "position" q); ("q1", col "q1" q);
                       ("q2", col "q2" q); ("q3", col "q3" q)]
                      ++ inlined ra d c)%list.
Proof.
  intros Hf Hs. destruct (race_id_parameter raceId Hs) as [Hi Hb].
  set (p := decimal raceId) in *. clearbody p.
  unfold serve. simpl. unfold get_qualifying. rewrite Hi. simpl.
  unfold all. rewrite Hf. simpl.
  eexists. split; [reflexivity | split].
  - unfold nondecreasing.
    apply Sorted_map_rel
      with (R := fun x y : row * row * row * row =>
                   by_key (fun t => col "position" (fst (fst (fst t)))) x y
                   = true).
    + intros [[[q1 ra1] d1] c1] [[[q2 ra2] d2] c2] H. exact H.
    + apply order_by_sorted. apply by_key_total.
  - intros obj. rewrite in_query. split.
    + intros [[[[q ra] d] c] (Hj & Hw & E)]. simpl in Hw. rewrite Hb in Hw.
      apply in_join in Hj. destruct Hj as (Hj & Hc & Ec).
      apply in_join in Hj. destruct Hj as (Hj & Hd & Ed).
      apply in_join in Hj. destruct Hj as (Hq & Hra & Era).
      exists q, ra, d, c. simpl in *. intuition.
    + intros [q [ra [d [c H]]]].
      destruct H as (Hq & Hra & Hd & Hc & Era & Ed & Ec & Ew & ->).
      exists (q, ra, d, c). split; [ | split; [ | reflexivity]].
      * apply in_join. split; [ | split; [exact Hc | exact Ec]].
        apply in_join. split; [ | split; [exact Hd | exact Ed]].
        apply in_join. auto.
      * simpl. now rewrite Hb.
Qed.

Lemma qualifying_of_a_race_witness :
  exists rows,
    serve Weekend.db (Qualifying "1077")
    = rows_or "No qualifying for raceId 1077." (inr rows)
    /\ nondecreasing "position" rows
    /\ forall obj,
        In obj rows
        <-> exists q ra d c,
            In q (qualifying Weekend.db) /\ In ra (races Weekend.db)
            /\ In d (drivers Weekend.db) /\ In c (constructors Weekend.db)
            /\ eq (col "raceId" ra) (col "raceId" q) = true
            /\ eq (col "driverId" d) (col "driverId" q) = true
            /\ eq (col "constructorId" c) (col "constructorId" q) = true
            /\ eq (col "raceId" q) (Integer 1077) = true
            /\ obj = ([("qualifyId", col "qualifyId" q);
                       ("position", col "position" q); ("q1", col "q1" q);
                       ("q2", col "q2" q); ("q3", col "q3" q)]
                      ++ inlined ra d c)%list.
Proof.
  apply (qualifying_of_a_race Weekend.db 1077 eq_refl). unfold safe. lia.
Defined.

(** ** Order of the range operations *)

(** X15. With the data store in working order and bounds that pass the
    two checks, both range operations (14 and 17) return their rows ordered
    by year, then round. *)
Theorem range_rows_are_ordered (db : Database) (ref start end_ : string) :
  fault db = None ->
  isInt start = true -> isInt end_ = true ->
  JS.lt (JS.Number end_) (JS.Number start) = false ->
  (exists rows,
      serve db (RacesCircuitSeasons ref start end_)
      = rows_or ("No races for '" ++ ref ++ "' between " ++ start ++ " and "
                 ++ end_ ++ ".") (inr rows)
      /\ by_year_then_round rows)
  /\ (exists rows,
         serve db (ResultsDriverSeasons ref start end_)
         = rows_or ("No results for '" ++ ref ++ "' between " ++ start
                    ++ " and " ++ end_ ++ ".") (inr rows)
         /\ by_year_then_round rows).
Proof.
  intros Hf Hs He Hlt. unfold serve. simpl.
  unfold get_races_circuit_seasons, get_results_driver_seasons.
  rewrite Hs, He, Hlt. simpl. unfold all. rewrite Hf. simpl. split.
  - eexists. split; [reflexivity | ]. unfold by_year_then_round.
    apply Sorted_map_rel
      with (R := fun x y : row * row =>
                   by_keys (fun rc => col "year" (fst rc))
                           (fun rc => col "round" (fst rc)) x y = true).
    + intros x y H. exact H.
    + apply order_by_sorted. apply by_keys_total.
  - eexists. split; [reflexivity | ]. unfold by_year_then_round.
    apply Sorted_map_rel
      with (R := fun x y : row * row * row * row =>
                   by_keys (fun t => col "year" (snd (fst t)))
                           (fun t => col "round" (snd (fst t))) x y = true).
    + intros [[[r1 d1] ra1] c1] [[[r2 d2] ra2] c2] H. exact H.
    + apply order_by_sorted. apply by_keys_total.
Qed.

Lemma range_rows_are_ordered_witness :
  (exists rows,
      serve Sample.db (RacesCircuitSeasons "monza" "2020" "2022")
      = rows_or "No races for 'monza' between 2020 and 2022." (inr rows)
      /\ by_year_then_round rows)
  /\ (exists rows,
         serve Sample.db (ResultsDriverSeasons "monza" "2020" "2022")
         = rows_or "No results for 'monza' between 2020 and 2022." (inr rows)
         /\ by_year_then_round rows).
Proof.
  exact (range_rows_are_ordered Sample.db "monza" "2020" "2022"
           eq_refl eq_refl eq_refl eq_refl).
Defined.

(** ** Paths and routes *)

(** X16. Routing gives back the request that a path was written for,
    whenever its parameters are not empty: no route shadows another.
    Conversely the parameters of a routed request are never empty. *)
Theorem route_of_path (r : request) :
  (Forall (fun x => x <> "") (params r) -> route (path_of r) = Some r)
  /\ (forall path,
        route path = Some r -> Forall (fun x => x <> "") (params r)).
Proof.
  split.
  - intros H.
    destruct r; simpl in H;
      repeat match goal with
             | H : Forall _ (?p :: _) |- _ =>
                 let Hp := fresh in
                 let Hrest := fresh in
                 inversion H as [ | ? ? Hp Hrest]; subst; clear H;
                 destruct p; [congruence | clear Hp]
             end;
      reflexivity.
  - intros path. apply routed_params_nonempty.
Qed.

(** ** Negative numerals *)

Lemma read_unsigned_numeral (n : Z) :
  0 <= n ->
  Double.read_unsigned_decimal (decimal n) = Some (n * 10 ^ 0 # 1, "").
Proof.
  intros Hn. destruct (read_decimal n Hn) as [k [Hk Hread]].
  unfold Double.read_unsigned_decimal. rewrite Hread.
  destruct (0 <? k + 0) eqn:E; [reflexivity | lia].
Qed.

Lemma Number_negative (n : Z) :
  safe n ->
  exists q, JS.Number (String "-" (decimal n)) = JS.Num (Double.DFin q)
            /\ q == inject_Z (- n).
Proof.
  intros Hn. unfold safe in Hn.
  destruct (decimal_head n) as [d [rest (Hs & Hd & H0)]]; [lia | ].
  assert (Htrim : JS.trim_start (String "-" (decimal n))
                  = String "-" (decimal n)).
  { unfold JS.trim_start, Double.drop_white.
    cbn [String.length Double.drop_white_fuel].
    rewrite Hs. destruct rest as [ | c2 rest]; reflexivity. }
  unfold JS.Number. rewrite Htrim.
  change (JS.read_prefixed (String "-" (decimal n))) with (@None (Q * string)).
  unfold JS.read_signed_decimal.
  change (Double.read_sign (String "-" (decimal n))) with (true, decimal n).
  cbv beta iota.
  assert (Hinf : String.prefix "Infinity" (decimal n) = false)
    by (rewrite Hs; now apply not_Infinity_digit).
  rewrite Hinf, read_unsigned_numeral by lia.
  change (JS.all_white "") with true. cbv iota.
  unfold Double.round_double.
  change (Qnum (n * 10 ^ 0 # 1)) with (n * 1).
  change (Qden (n * 10 ^ 0 # 1)) with 1%positive.
  rewrite Z.mul_1_r.
  destruct n as [ | p | p]; [ | | lia].
  - exists (Qopp 0). split; reflexivity.
  - destruct (round_pos_exact (Zpos p) ltac:(lia)) as [q [Hq Eq]].
    exists (Qopp q). rewrite Hq. split; [reflexivity | ].
    rewrite Eq. reflexivity.
Qed.

(** X17. Validation does not refuse a negative number: for every natural
    number below 2^53, the numeral with a minus sign converts to the
    negative number, passes [isInt], and the handler of a race lookup
    submits its statement with it. *)
Theorem negative_numerals_are_accepted (n : Z) :
  safe n ->
  (exists q, JS.Number (String "-" (decimal n)) = JS.Num (Double.DFin q)
             /\ q == inject_Z (- n))
  /\ isInt (String "-" (decimal n)) = true
  /\ submitted (handle (Race (String "-" (decimal n))))
     = Some (sql_race, [String "-" (decimal n)]).
Proof.
  intros Hn. destruct (Number_negative n Hn) as [q [Hq Eq]].
  assert (Hi : isInt (String "-" (decimal n)) = true).
  { apply isInt_true_iff. exists q. split; [exact Hq | now exists (- n)]. }
  split; [now exists q | split; [exact Hi | ]].
  simpl. unfold get_race. rewrite Hi. reflexivity.
Qed.

Lemma negative_numerals_are_accepted_witness :
  (exists q, JS.Number "-7" = JS.Num (Double.DFin q) /\ q == inject_Z (- 7))
  /\ isInt "-7" = true
  /\ submitted (handle (Race "-7")) = Some (sql_race, ["-7"]).
Proof.
  apply (negative_numerals_are_accepted 7). unfold safe. lia.
Defined.
